(** * Invoice pricing engine ([src/invoice_service.py])

    A shallow embedding of [InvoiceService] and of the two value classes
    [LineItem] and [Invoice], followed by the properties of the pricing
    pipeline (validation, subtotal, shipping, discounts, tax, assembly).

    Conventions of the embedding.
    - Money.  The specification speaks of decimals and leaves rounding
      open; amounts are exact rationals ([Q]) and every decimal literal of
      the source ([0.03], [5.0], ...) denotes its exact value.  Binary
      rounding, infinities and NaN of Python's [float] are not part of the
      model.  Python's [int] is [Z]; an [int] operand of a mixed operation
      is injected with [inject_Z].
    - Strings are sequences of code points below 256 ([string]).
    - The dictionary [self._coupon_rate] is a [gmap string Q].
    - [raise ValueError(msg)] is the constructor [ValueError] of [outcome];
      reading an attribute of [None] is [AttributeError].
    - A list that the source mutates ([problems], [warnings]) is threaded
      explicitly: a function that appends takes the list and returns it.
    - The module [Stateful] embeds the same methods a second time, as calls
      on a heap in which the service, the invoices and the lists are objects
      passed by reference; the two embeddings are proved to agree. *)

From Stdlib Require Import QArith Lqa ZArith Ascii String List Bool Lia.
From stdpp Require Import gmap strings list fin_maps.

Import ListNotations.
Local Open Scope string_scope.
Local Open Scope list_scope.
Local Open Scope Q_scope.

(** ** Value classes *)

Record LineItem := mkLineItem {
  sku : string;
  category : string;
  unit_price : Q;
  qty : Z;
  fragile : bool
}.

Record Invoice := mkInvoice {
  invoice_id : string;
  customer_id : string;
  country : string;
  membership : string;
  coupon : option string;
  items : list LineItem
}.

(** The service object: its only attribute is the coupon table. *)
Record InvoiceService := mkService {
  _coupon_rate : gmap string Q
}.

(** [InvoiceService.__init__]. *)
Definition __init__ : InvoiceService :=
  {| _coupon_rate :=
       <["WELCOME10" := 0.10]> (<["VIP20" := 0.20]> (<["STUDENT5" := 0.05]> ∅)) |}.

(** What a call of [compute_total] produces: a returned pair, a raised
    [ValueError] with its message, or the [AttributeError] of [inv.items]
    on [None]. *)
Inductive outcome :=
| Return (total : Q) (warnings : list string)
| ValueError (msg : string)
| AttributeError.

(** ** Python primitives used by the source *)

(** [x < y] on numbers, as a boolean. *)
Definition ltb (x y : Q) : bool :=
  (Qnum x * Zpos (Qden y) <? Qnum y * Zpos (Qden x))%Z.

(** Truth value of a string: [not s] holds for the empty string only. *)
Definition falsy (s : string) : bool :=
  match s with
  | EmptyString => true
  | String _ _ => false
  end.

(** [str.isspace] on one code point below 256: TAB..CR, FS..US, SPACE,
    NEL and NBSP. *)
Definition isspace (c : ascii) : bool :=
  let n := nat_of_ascii c in
  ((9 <=? n) && (n <=? 13) || (28 <=? n) && (n <=? 32)
   || (n =? 133) || (n =? 160))%nat.

Fixpoint lstrip (s : string) : string :=
  match s with
  | EmptyString => EmptyString
  | String c s' => if isspace c then lstrip s' else s
  end.

Fixpoint rstrip (s : string) : string :=
  match s with
  | EmptyString => EmptyString
  | String c s' =>
      match rstrip s' with
      | EmptyString => if isspace c then EmptyString else String c EmptyString
      | r => String c r
      end
  end.

(** [s.strip()]. *)
Definition strip (s : string) : string := rstrip (lstrip s).

(** [sep.join(l)]. *)
Fixpoint join (sep : string) (l : list string) : string :=
  match l with
  | [] => EmptyString
  | [x] => x
  | x :: rest => x +:+ sep +:+ join sep rest
  end.

(** [x in ("book", "food", "electronics", "other")]. *)
Definition known_category (c : string) : bool :=
  (c =? "book")%string || (c =? "food")%string
  || (c =? "electronics")%string || (c =? "other")%string.

(** ** [InvoiceService._validate] *)

(** Body of the loop over the items: up to four appends to [problems]. *)
Definition _validate_item (problems : list string) (it : LineItem) : list string :=
  let problems :=
    if falsy (sku it) then problems ++ ["Item sku is missing"] else problems in
  let problems :=
    if (qty it <=? 0)%Z
    then problems ++ ["Invalid qty for " +:+ sku it] else problems in
  let problems :=
    if ltb (unit_price it) 0
    then problems ++ ["Invalid price for " +:+ sku it] else problems in
  if negb (known_category (category it))
  then problems ++ ["Unknown category for " +:+ sku it] else problems.

Definition _validate (inv : option Invoice) : list string :=
  let problems := [] in
  match inv with
  | None => problems ++ ["Invoice is missing"]
  | Some inv =>
      let problems :=
        if falsy (invoice_id inv)
        then problems ++ ["Missing invoice_id"] else problems in
      let problems :=
        if falsy (customer_id inv)
        then problems ++ ["Missing customer_id"] else problems in
      let problems :=
        match items inv with
        | [] => problems ++ ["Invoice must contain items"]
        | _ :: _ => problems
        end in
      fold_left _validate_item (items inv) problems
  end.

(** ** The calculators *)

(** Loop body of [_compute_subtotal_and_fragile_fee] on the pair
    [(subtotal, fragile_fee)]. *)
Definition _subtotal_step (acc : Q * Q) (it : LineItem) : Q * Q :=
  let '(subtotal, fragile_fee) := acc in
  let subtotal := subtotal + unit_price it * inject_Z (qty it) in
  let fragile_fee :=
    if fragile it then fragile_fee + 5.0 * inject_Z (qty it) else fragile_fee in
  (subtotal, fragile_fee).

Definition _compute_subtotal_and_fragile_fee (items : list LineItem) : Q * Q :=
  fold_left _subtotal_step items (0.0, 0.0).

Definition _compute_shipping (country : string) (subtotal : Q) : Q :=
  if (country =? "TH")%string then
    if ltb subtotal 500 then 60 else 0
  else if (country =? "JP")%string then
    if ltb subtotal 4000 then 600 else 0
  else if (country =? "US")%string then
    if ltb subtotal 100 then 15
    else if ltb subtotal 300 then 8
    else 0
  else if ltb subtotal 200 then 25 else 0.

Definition _compute_membership_discount (membership : string) (subtotal : Q) : Q :=
  if (membership =? "gold")%string then subtotal * 0.03
  else if (membership =? "platinum")%string then subtotal * 0.05
  else if ltb 3000 subtotal then 20 else 0.0.

(** [_apply_coupon]: returns the discount and the [warnings] list after the
    call (the source appends to the caller's list). *)
Definition _apply_coupon (self : InvoiceService) (coupon : option string)
    (subtotal : Q) (warnings : list string) : Q * list string :=
  match coupon with
  | None => (0.0, warnings)
  | Some coupon =>
      if falsy (strip coupon) then (0.0, warnings)
      else
        let code := strip coupon in
        match _coupon_rate self !! code with
        | Some rate => (subtotal * rate, warnings)
        | None => (0.0, warnings ++ ["Unknown coupon"])
        end
  end.

Definition _compute_tax (country : string) (subtotal discount : Q) : Q :=
  let base := subtotal - discount in
  let rate :=
    if (country =? "TH")%string then 0.07
    else if (country =? "JP")%string then 0.10
    else if (country =? "US")%string then 0.08
    else 0.05 in
  base * rate.

(** ** [InvoiceService.compute_total] *)

(** [membership not in ("gold", "platinum")]. *)
Definition not_premium (membership : string) : bool :=
  negb ((membership =? "gold")%string || (membership =? "platinum")%string).

Definition compute_total (self : InvoiceService) (inv : option Invoice) : outcome :=
  let warnings := [] in
  let problems := _validate inv in
  match problems, inv with
  | _ :: _, _ => ValueError (join "; " problems)
  | [], None => AttributeError
  | [], Some inv =>
      let '(subtotal, fragile_fee) := _compute_subtotal_and_fragile_fee (items inv) in
      let shipping := _compute_shipping (country inv) subtotal in
      let discount := _compute_membership_discount (membership inv) subtotal in
      let '(coupon_discount, warnings) :=
        _apply_coupon self (coupon inv) subtotal warnings in
      let discount := discount + coupon_discount in
      let tax := _compute_tax (country inv) subtotal discount in
      let total := subtotal + shipping + fragile_fee + tax - discount in
      let total := if ltb total 0 then 0 else total in
      let warnings :=
        if ltb 10000 subtotal && not_premium (membership inv)
        then warnings ++ ["Consider membership upgrade"] else warnings in
      Return total warnings
  end.

(** ** Observers of one run of the pipeline

    The intermediate values of [compute_total] on an invoice, each computed
    by the source function that the pipeline calls at that point. *)

Definition subtotal_of (inv : Invoice) : Q :=
  fst (_compute_subtotal_and_fragile_fee (items inv)).

Definition fragile_fee_of (inv : Invoice) : Q :=
  snd (_compute_subtotal_and_fragile_fee (items inv)).

Definition shipping_of (inv : Invoice) : Q :=
  _compute_shipping (country inv) (subtotal_of inv).

Definition discount_of (self : InvoiceService) (inv : Invoice) : Q :=
  _compute_membership_discount (membership inv) (subtotal_of inv)
  + fst (_apply_coupon self (coupon inv) (subtotal_of inv) []).

Definition tax_of (self : InvoiceService) (inv : Invoice) : Q :=
  _compute_tax (country inv) (subtotal_of inv) (discount_of self inv).

(** The sum of line 65, before the clamp. *)
Definition gross_total (self : InvoiceService) (inv : Invoice) : Q :=
  subtotal_of inv + shipping_of inv + fragile_fee_of inv + tax_of self inv
  - discount_of self inv.

(** The warnings list at the [return] of a successful run. *)
Definition warnings_of (self : InvoiceService) (inv : Invoice) : list string :=
  let warnings := snd (_apply_coupon self (coupon inv) (subtotal_of inv) []) in
  if ltb 10000 (subtotal_of inv) && not_premium (membership inv)
  then warnings ++ ["Consider membership upgrade"] else warnings.

(** ** The specification's vocabulary *)

(** Sum of a list of amounts. *)
Fixpoint Qsum (l : list Q) : Q :=
  match l with
  | [] => 0
  | x :: l => x + Qsum l
  end.

(** "sum over items of unit_price x qty". *)
Definition spec_subtotal (its : list LineItem) : Q :=
  Qsum (map (fun it => unit_price it * inject_Z (qty it)) its).

(** "sum over fragile items of 5.0 x qty". *)
Definition spec_fragile_fee (its : list LineItem) : Q :=
  Qsum (map (fun it => 5.0 * inject_Z (qty it))
          (filter (fun it => fragile it = true) its)).

(** One validation check: the problem text, present when the condition
    holds. *)
Definition problem_if (P : Prop) `{Decision P} (msg : string) : list string :=
  if decide P then [msg] else [].

#[local] Instance Qlt_decision (x y : Q) : Decision (x < y).
Proof.
  destruct (Qlt_le_dec x y) as [H | H]; [left; exact H | right].
  apply Qle_not_lt, H.
Defined.

(** The four per-item checks of the specification, in its order. *)
Definition spec_item_problems (it : LineItem) : list string :=
  problem_if (sku it = "") "Item sku is missing"
  ++ problem_if (qty it <= 0)%Z ("Invalid qty for " +:+ sku it)
  ++ problem_if (unit_price it < 0) ("Invalid price for " +:+ sku it)
  ++ problem_if (category it ∉ ["book"; "food"; "electronics"; "other"])
       ("Unknown category for " +:+ sku it).

(** All problems of a present invoice in check order. *)
Definition spec_problems (inv : Invoice) : list string :=
  problem_if (invoice_id inv = "") "Missing invoice_id"
  ++ problem_if (customer_id inv = "") "Missing customer_id"
  ++ problem_if (items inv = []) "Invoice must contain items"
  ++ flat_map spec_item_problems (items inv).

(** The shipping table of the specification, one constructor per bracket:
    [shipping_row country subtotal fee]. *)
Inductive shipping_row : string -> Q -> Q -> Prop :=
| ship_TH_low s : s < 500 -> shipping_row "TH" s 60
| ship_TH_free s : 500 <= s -> shipping_row "TH" s 0
| ship_JP_low s : s < 4000 -> shipping_row "JP" s 600
| ship_JP_free s : 4000 <= s -> shipping_row "JP" s 0
| ship_US_low s : s < 100 -> shipping_row "US" s 15
| ship_US_mid s : 100 <= s -> s < 300 -> shipping_row "US" s 8
| ship_US_free s : 300 <= s -> shipping_row "US" s 0
| ship_other_low c s :
    c <> "TH" -> c <> "JP" -> c <> "US" -> s < 200 -> shipping_row c s 25
| ship_other_free c s :
    c <> "TH" -> c <> "JP" -> c <> "US" -> 200 <= s -> shipping_row c s 0.

(** The tax rates of the specification. *)
Definition spec_tax_rate (country : string) : Q :=
  if decide (country = "TH") then 0.07
  else if decide (country = "JP") then 0.10
  else if decide (country = "US") then 0.08
  else 0.05.

(** A string of whitespace only (possibly empty). *)
Fixpoint all_space (s : string) : bool :=
  match s with
  | EmptyString => true
  | String c s' => isspace c && all_space s'
  end.

(** ** Comparing two invoices *)

(** [it'] is [it] with its unit price or its quantity increased. *)
Definition line_raised (it it' : LineItem) : Prop :=
  sku it' = sku it /\ category it' = category it /\ fragile it' = fragile it
  /\ ((unit_price it < unit_price it' /\ qty it' = qty it)
      \/ (unit_price it' = unit_price it /\ (qty it < qty it')%Z)).

(** [inv'] is [inv] with one line item raised and nothing else changed. *)
Definition one_line_raised (inv inv' : Invoice) : Prop :=
  invoice_id inv' = invoice_id inv /\ customer_id inv' = customer_id inv
  /\ country inv' = country inv /\ membership inv' = membership inv
  /\ coupon inv' = coupon inv
  /\ exists pre it it' post,
       items inv = pre ++ it :: post /\ items inv' = pre ++ it' :: post
       /\ line_raised it it'.

(** The monotonicity property of the specification, for a service [self]:
    raising one line decreases neither the subtotal nor the total. *)
Definition total_never_decreases (self : InvoiceService) : Prop :=
  forall inv inv' total warnings total' warnings',
    _validate (Some inv) = [] -> _validate (Some inv') = [] ->
    one_line_raised inv inv' ->
    compute_total self (Some inv) = Return total warnings ->
    compute_total self (Some inv') = Return total' warnings' ->
    subtotal_of inv <= subtotal_of inv' /\ total <= total'.

(** Two invoices are charged in the same brackets: the same shipping fee
    and, unless the membership is gold or platinum, the same side of the
    3000 bound of the flat membership discount. *)
Definition same_brackets (inv inv' : Invoice) : Prop :=
  shipping_of inv' == shipping_of inv
  /\ (membership inv = "gold" \/ membership inv = "platinum"
      \/ (3000 < subtotal_of inv <-> 3000 < subtotal_of inv')).


(** ** Further vocabulary *)

(** A line item that passes the four checks of the validation loop. *)
Definition item_ok (it : LineItem) : Prop :=
  sku it <> "" /\ (0 < qty it)%Z /\ 0 <= unit_price it
  /\ category it ∈ ["book"; "food"; "electronics"; "other"].

(** [p] occurs in [msg] ([p in msg] on strings). *)
Definition contains (msg p : string) : Prop :=
  exists pre post, msg = pre +:+ p +:+ post.

(** The fields of a line item that [_validate] reads. *)
Definition validated_fields (it : LineItem) : string * Z * Q * string :=
  (sku it, qty it, unit_price it, category it).

(** The fields of a line item that the calculators read. *)
Definition priced_fields (it : LineItem) : Q * Z * bool :=
  (unit_price it, qty it, fragile it).


(** [compute_total] raises a [ValueError] whose message names [p]. *)
Definition raises_naming (self : InvoiceService) (inv : option Invoice)
    (p : string) : Prop :=
  exists msg, compute_total self inv = ValueError msg /\ contains msg p.


(** The number of units on fragile lines. *)
Fixpoint fragile_units (its : list LineItem) : Z :=
  match its with
  | [] => 0
  | it :: its => ((if fragile it then qty it else 0) + fragile_units its)%Z
  end.


(** ** The methods as calls on a heap of objects

    The pure functions above read their arguments only.  Python passes the
    service, the invoice and every list by reference, and a method may
    assign to any of them; whether [compute_total] gives the same result
    when it is called again depends on what it leaves behind.  This module
    embeds the same methods as state transformers on a heap that holds the
    service objects, the invoice objects and the list objects ([problems],
    [warnings]), so that a write to any of them is expressible. *)
Module Stateful.

Record Heap := mkHeap {
  services : gmap positive InvoiceService;
  invoices : gmap positive Invoice;
  lists : gmap positive (list string)
}.

Inductive exception :=
| RaisedValueError (msg : string)
| RaisedAttributeError.

Inductive completion (A : Type) :=
| Normal (a : A)
| Raised (e : exception).
Arguments Normal {A} a.
Arguments Raised {A} e.

(** A call: from the heap before to the completion and the heap after. *)
Definition Call (A : Type) : Type := Heap -> completion A * Heap.

Definition ret {A} (a : A) : Call A := fun h => (Normal a, h).

Definition bind {A B} (c : Call A) (k : A -> Call B) : Call B :=
  fun h =>
    match c h with
    | (Normal a, h') => k a h'
    | (Raised e, h') => (Raised e, h')
    end.

Definition raise {A} (e : exception) : Call A := fun h => (Raised e, h).

Notation "x <-- c ; k" := (bind c (fun x => k))
  (at level 20, c at level 100, k at level 200, only parsing).

(** [[]]: a new list object at an unused address. *)
Definition new_list : Call positive :=
  fun h =>
    let l := fresh (dom (lists h)) in
    (Normal l, mkHeap (services h) (invoices h) (<[l := []]> (lists h))).

(** [l.append(x)]. *)
Definition append (l : positive) (x : string) : Call unit :=
  fun h =>
    (Normal tt,
     mkHeap (services h) (invoices h)
       (<[l := default [] (lists h !! l) ++ [x]]> (lists h))).

(** The elements of the list object [l]. *)
Definition read_list (l : positive) : Call (list string) :=
  fun h => (Normal (default [] (lists h !! l)), h).

(** [inv.field]. *)
Definition getattr {A} (inv : positive) (field : Invoice -> A) : Call A :=
  fun h =>
    match invoices h !! inv with
    | Some i => (Normal (field i), h)
    | None => (Raised RaisedAttributeError, h)
    end.

(** [self.field]. *)
Definition getself {A} (self : positive) (field : InvoiceService -> A)
    : Call A :=
  fun h =>
    match services h !! self with
    | Some s => (Normal (field s), h)
    | None => (Raised RaisedAttributeError, h)
    end.

(** [if b: c]. *)
Definition when (b : bool) (c : Call unit) : Call unit :=
  if b then c else ret tt.

(** [for x in l: body]. *)
Fixpoint for_each {A} (l : list A) (body : A -> Call unit) : Call unit :=
  match l with
  | [] => ret tt
  | x :: l => _ <-- body x ; for_each l body
  end.

(** [InvoiceService._validate]: returns the address of [problems]. *)
Definition _validate (inv : option positive) : Call positive :=
  problems <-- new_list ;
  match inv with
  | None =>
      _ <-- append problems "Invoice is missing" ;
      ret problems
  | Some inv =>
      id <-- getattr inv invoice_id ;
      _ <-- when (falsy id) (append problems "Missing invoice_id") ;
      cid <-- getattr inv customer_id ;
      _ <-- when (falsy cid) (append problems "Missing customer_id") ;
      its <-- getattr inv items ;
      _ <-- when (match its with [] => true | _ :: _ => false end)
              (append problems "Invoice must contain items") ;
      its <-- getattr inv items ;
      _ <-- for_each its (fun it =>
              _ <-- when (falsy (sku it))
                      (append problems "Item sku is missing") ;
              _ <-- when (qty it <=? 0)%Z
                      (append problems ("Invalid qty for " +:+ sku it)) ;
              _ <-- when (ltb (unit_price it) 0)
                      (append problems ("Invalid price for " +:+ sku it)) ;
              when (negb (known_category (category it)))
                (append problems ("Unknown category for " +:+ sku it))) ;
      ret problems
  end.

(** [InvoiceService._apply_coupon]: [warnings] is the address of the
    caller's list. *)
Definition _apply_coupon (self : positive) (coupon : option string)
    (subtotal : Q) (warnings : positive) : Call Q :=
  match coupon with
  | None => ret 0.0
  | Some coupon =>
      if falsy (strip coupon) then ret 0.0
      else
        let code := strip coupon in
        table <-- getself self _coupon_rate ;
        match table !! code with
        | Some rate => ret (subtotal * rate)
        | None =>
            _ <-- append warnings "Unknown coupon" ;
            ret 0.0
        end
  end.

(** [InvoiceService.compute_total]: returns the total and the address of
    [warnings]. *)
Definition compute_total (self : positive) (inv : option positive)
    : Call (Q * positive) :=
  warnings <-- new_list ;
  problems <-- _validate inv ;
  found <-- read_list problems ;
  match found, inv with
  | _ :: _, _ => raise (RaisedValueError (join "; " found))
  | [], None => raise RaisedAttributeError
  | [], Some inv =>
      its <-- getattr inv items ;
      let '(subtotal, fragile_fee) := _compute_subtotal_and_fragile_fee its in
      c <-- getattr inv country ;
      let shipping := _compute_shipping c subtotal in
      m <-- getattr inv membership ;
      let discount := _compute_membership_discount m subtotal in
      cp <-- getattr inv coupon ;
      coupon_discount <-- _apply_coupon self cp subtotal warnings ;
      let discount := discount + coupon_discount in
      c <-- getattr inv country ;
      let tax := _compute_tax c subtotal discount in
      let total := subtotal + shipping + fragile_fee + tax - discount in
      let total := if ltb total 0 then 0 else total in
      _ <-- (if ltb 10000 subtotal
             then m <-- getattr inv membership ;
                  when (not_premium m)
                    (append warnings "Consider membership upgrade")
             else ret tt) ;
      ret (total, warnings)
  end.

(** What the caller sees of a completed call: the total with the elements
    of the returned list, or the exception. *)
Definition observe (c : completion (Q * positive)) (h : Heap) : outcome :=
  match c with
  | Normal (total, warnings) =>
      Return total (default [] (lists h !! warnings))
  | Raised (RaisedValueError msg) => ValueError msg
  | Raised RaisedAttributeError => AttributeError
  end.

(** The invoice object that an argument of [compute_total] refers to. *)
Definition referent (h : Heap) (inv : option positive) : option Invoice :=
  match inv with
  | None => None
  | Some r => invoices h !! r
  end.

(** The argument is [None] or the address of an invoice object. *)
Definition allocated (h : Heap) (inv : option positive) : Prop :=
  forall r, inv = Some r -> is_Some (invoices h !! r).

End Stateful.


(** Example invoices used to exercise the statements below. *)
Definition book_line (price : Q) (n : Z) : LineItem :=
  {| sku := "B1"; category := "book"; unit_price := price; qty := n;
     fragile := false |}.

Definition th_invoice (price : Q) : Invoice :=
  {| invoice_id := "INV-1"; customer_id := "CUST-1"; country := "TH";
     membership := "regular"; coupon := None; items := [book_line price 1] |}.

Definition us_invoice : Invoice :=
  {| invoice_id := "INV-2"; customer_id := "CUST-1"; country := "US";
     membership := "regular"; coupon := None; items := [book_line 100 2] |}.

Definition big_invoice : Invoice :=
  {| invoice_id := "INV-3"; customer_id := "CUST-2"; country := "JP";
     membership := "regular"; coupon := Some "BOGUS";
     items := [book_line 100 120] |}.

Definition welcome_invoice : Invoice :=
  {| invoice_id := "INV-4"; customer_id := "CUST-3"; country := "TH";
     membership := "regular"; coupon := Some "WELCOME10";
     items := [book_line 1000 1] |}.

Definition relabelled_invoice : Invoice :=
  {| invoice_id := "INV-3"; customer_id := "CUST-2"; country := "ZZ";
     membership := "bronze"; coupon := None;
     items := [ {| sku := "B1"; category := "book"; unit_price := 100;
                   qty := 120; fragile := true |} ] |}.

Definition renamed_invoice : Invoice :=
  {| invoice_id := "INV-9"; customer_id := "CUST-9"; country := "JP";
     membership := "regular"; coupon := Some "BOGUS";
     items := [ {| sku := "F7"; category := "food"; unit_price := 100;
                   qty := 120; fragile := false |} ] |}.

Definition fragile_invoice : Invoice :=
  {| invoice_id := "INV-6"; customer_id := "CUST-4"; country := "US";
     membership := "gold"; coupon := None;
     items := [ {| sku := "E1"; category := "electronics"; unit_price := 10;
                   qty := 3; fragile := true |};
                book_line 20 2 ] |}.

(** A heap with the service of [__init__] at address 1, the invoice of
    scenario 2 at address 1 and no list object yet. *)
Definition office_heap : Stateful.Heap :=
  Stateful.mkHeap {[1%positive := __init__]} {[1%positive := big_invoice]} ∅.

Definition broken_invoice : Invoice :=
  {| invoice_id := ""; customer_id := "CUST-1"; country := "JP";
     membership := "gold"; coupon := Some "VIP20";
     items := [ {| sku := "X"; category := "toy"; unit_price := -1; qty := 0;
                   fragile := true |} ] |}.

(** * Properties *)

(** ** Comparison *)

Lemma ltb_lt x y : ltb x y = true <-> x < y.
Proof. unfold ltb, Qlt. apply Z.ltb_lt. Qed.

Lemma ltb_ge x y : ltb x y = false <-> y <= x.
Proof. unfold ltb, Qle. rewrite Z.ltb_ge. reflexivity. Qed.

Lemma ltb_reflect x y : reflect (x < y) (ltb x y).
Proof.
  destruct (ltb x y) eqn:E; constructor.
  - apply ltb_lt, E.
  - apply Qle_not_lt, ltb_ge, E.
Qed.

Lemma falsy_empty s : falsy s = true <-> s = "".
Proof. destruct s; simpl; split; congruence. Qed.

(** ** Validation *)

Lemma known_category_elem c :
  known_category c = true <-> c ∈ ["book"; "food"; "electronics"; "other"].
Proof.
  unfold known_category.
  rewrite !orb_true_iff, !String.eqb_eq, !elem_of_cons, elem_of_nil.
  tauto.
Qed.

(** An [if c: problems.append(msg)] is one check of the specification. *)
Lemma append_if_problem (c : bool) (P : Prop) `{Decision P} msg problems :
  (c = true <-> P) ->
  (if c then problems ++ [msg] else problems) = problems ++ problem_if P msg.
Proof.
  intros Hc. unfold problem_if.
  destruct c, (decide P) as [HP | HP]; try reflexivity.
  - destruct HP. now apply Hc.
  - apply Hc in HP. discriminate.
  - now rewrite app_nil_r.
Qed.

Lemma unknown_category_elem c :
  negb (known_category c) = true
  <-> c ∉ ["book"; "food"; "electronics"; "other"].
Proof.
  rewrite negb_true_iff, <- not_true_iff_false.
  apply not_iff_compat, known_category_elem.
Qed.

Lemma _validate_item_spec problems it :
  _validate_item problems it = problems ++ spec_item_problems it.
Proof.
  unfold _validate_item, spec_item_problems.
  rewrite (append_if_problem (falsy (sku it)) (sku it = "")) by apply falsy_empty.
  rewrite (append_if_problem (qty it <=? 0)%Z (qty it <= 0)%Z) by apply Z.leb_le.
  rewrite (append_if_problem (ltb (unit_price it) 0) (unit_price it < 0)) by apply ltb_lt.
  rewrite (append_if_problem (negb (known_category (category it)))
             (category it ∉ ["book"; "food"; "electronics"; "other"])) by apply unknown_category_elem.
  now rewrite <- !app_assoc.
Qed.

Lemma fold_validate_items its problems :
  fold_left _validate_item its problems
  = problems ++ flat_map spec_item_problems its.
Proof.
  revert problems.
  induction its as [| it its IH]; intros problems; simpl.
  - now rewrite app_nil_r.
  - rewrite IH, _validate_item_spec, <- app_assoc. reflexivity.
Qed.

Lemma _validate_present inv : _validate (Some inv) = spec_problems inv.
Proof.
  unfold _validate, spec_problems.
  rewrite fold_validate_items.
  rewrite (append_if_problem (falsy (invoice_id inv)) (invoice_id inv = ""))
    by apply falsy_empty.
  rewrite (append_if_problem (falsy (customer_id inv)) (customer_id inv = ""))
    by apply falsy_empty.
  unfold problem_if at 5.
  destruct (items inv) as [| it its]; simpl;
    now rewrite <- ?app_assoc, ?app_nil_r.
Qed.

Lemma problem_if_nil (P : Prop) `{Decision P} msg :
  problem_if P msg = [] <-> ~ P.
Proof.
  unfold problem_if. destruct (decide P); split; intros; try easy.
Qed.

(** What an empty problem list says about one item. *)
Lemma spec_item_problems_nil it :
  spec_item_problems it = [] ->
  sku it <> "" /\ (0 < qty it)%Z /\ 0 <= unit_price it
  /\ category it ∈ ["book"; "food"; "electronics"; "other"].
Proof.
  unfold spec_item_problems. intros H.
  apply app_eq_nil in H as [Hs H]. apply app_eq_nil in H as [Hq H].
  apply app_eq_nil in H as [Hp Hc].
  apply problem_if_nil in Hs, Hq, Hp, Hc.
  repeat split.
  - exact Hs.
  - lia.
  - now apply Qnot_lt_le.
  - now apply dec_stable.
Qed.

Lemma flat_map_nil_Forall {A B} (f : A -> list B) (l : list A) :
  flat_map f l = [] -> Forall (fun x => f x = []) l.
Proof.
  induction l as [| x l IH]; simpl; intros H; constructor.
  - now apply app_eq_nil in H.
  - apply IH. now apply app_eq_nil in H.
Qed.

(** What passing validation says about an invoice. *)
Lemma valid_invoice inv :
  _validate (Some inv) = [] ->
  invoice_id inv <> "" /\ customer_id inv <> "" /\ items inv <> []
  /\ Forall (fun it => (0 < qty it)%Z /\ 0 <= unit_price it) (items inv).
Proof.
  rewrite _validate_present. unfold spec_problems. intros H.
  apply app_eq_nil in H as [H1 H]. apply app_eq_nil in H as [H2 H].
  apply app_eq_nil in H as [H3 H].
  apply problem_if_nil in H1, H2, H3.
  repeat split; try assumption.
  apply flat_map_nil_Forall in H.
  eapply Forall_impl; [exact H |].
  intros it Hit. apply spec_item_problems_nil in Hit. tauto.
Qed.

Lemma _validate_missing : _validate None = ["Invoice is missing"].
Proof. reflexivity. Qed.

(** ** The pipeline on a valid invoice *)

Lemma compute_total_valid self inv :
  _validate (Some inv) = [] ->
  compute_total self (Some inv)
  = Return (if ltb (gross_total self inv) 0 then 0 else gross_total self inv)
           (warnings_of self inv).
Proof.
  intros Hv. unfold compute_total. rewrite Hv.
  unfold gross_total, warnings_of, tax_of, discount_of, shipping_of,
    fragile_fee_of, subtotal_of.
  destruct (_compute_subtotal_and_fragile_fee (items inv)) as [subtotal fee].
  simpl fst; simpl snd.
  destruct (_apply_coupon self (coupon inv) subtotal []) as [cd ws].
  reflexivity.
Qed.

Lemma compute_total_invalid self inv :
  _validate inv <> [] ->
  compute_total self inv = ValueError (join "; " (_validate inv)).
Proof.
  intros Hp. unfold compute_total.
  destruct (_validate inv); [congruence | reflexivity].
Qed.

(** C2: [compute_total] raises [ValueError] exactly when [_validate] finds a
    problem; the message is the problems joined by "; "; for a present
    invoice the problems are those of the specification's checks in their
    order (invoice_id, customer_id, items, then per item sku, qty, price,
    category), each check contributing independently of the others; and a
    raising call returns no total and no warnings. *)
Theorem compute_total_raises_iff_problems self (inv : option Invoice) :
  ((exists msg, compute_total self inv = ValueError msg) <-> _validate inv <> [])
  /\ (_validate inv <> [] ->
      compute_total self inv = ValueError (join "; " (_validate inv))
      /\ forall total warnings, compute_total self inv <> Return total warnings)
  /\ (forall i, inv = Some i -> _validate inv = spec_problems i)
  /\ compute_total self inv <> AttributeError.
Proof.
  split; [| split; [| split]].
  - split.
    + intros [msg Hmsg] Hnil.
      destruct inv as [i |]; [| discriminate Hnil].
      rewrite (compute_total_valid _ _ Hnil) in Hmsg. discriminate.
    + intros Hp. eexists. apply compute_total_invalid, Hp.
  - intros Hp. rewrite (compute_total_invalid _ _ Hp). split; [reflexivity |].
    intros; discriminate.
  - intros i ->. apply _validate_present.
  - destruct (_validate inv) as [| p ps] eqn:Hv.
    + destruct inv as [i |]; [| discriminate Hv].
      rewrite (compute_total_valid _ _ Hv). discriminate.
    + rewrite compute_total_invalid by (rewrite Hv; discriminate). discriminate.
Qed.

(** The checks on an invoice with four problems, and the message raised. *)
Lemma compute_total_raises_iff_problems_witness :
  _validate (Some broken_invoice)
  = ["Missing invoice_id"; "Invalid qty for X"; "Invalid price for X";
     "Unknown category for X"]
  /\ compute_total __init__ (Some broken_invoice)
     = ValueError
         "Missing invoice_id; Invalid qty for X; Invalid price for X; Unknown category for X".
Proof.
  split; [reflexivity |].
  destruct (compute_total_raises_iff_problems __init__ (Some broken_invoice))
    as (_ & H & _).
  destruct H as [H _]; [discriminate | exact H].
Defined.

(** ** Subtotal and fragile fee *)

Lemma fold_subtotal_step its subtotal fee :
  fst (fold_left _subtotal_step its (subtotal, fee))
    == subtotal + spec_subtotal its
  /\ snd (fold_left _subtotal_step its (subtotal, fee))
    == fee + spec_fragile_fee its.
Proof.
  revert subtotal fee.
  induction its as [| it its IH]; intros subtotal fee.
  - unfold spec_subtotal, spec_fragile_fee; simpl. split; ring.
  - cbn [fold_left _subtotal_step].
    unfold spec_subtotal, spec_fragile_fee in *. rewrite filter_cons.
    destruct (fragile it) eqn:Hf.
    + rewrite decide_True by reflexivity.
      destruct (IH (subtotal + unit_price it * inject_Z (qty it))
                   (fee + 5.0 * inject_Z (qty it))) as [-> ->].
      cbn [map Qsum]. split; ring.
    + rewrite decide_False by discriminate.
      destruct (IH (subtotal + unit_price it * inject_Z (qty it)) fee)
        as [-> ->].
      cbn [map Qsum]. split; ring.
Qed.

Lemma subtotal_of_spec inv : subtotal_of inv == spec_subtotal (items inv).
Proof.
  unfold subtotal_of, _compute_subtotal_and_fragile_fee.
  destruct (fold_subtotal_step (items inv) 0.0 0.0) as [-> _]. ring.
Qed.

Lemma fragile_fee_of_spec inv :
  fragile_fee_of inv == spec_fragile_fee (items inv).
Proof.
  unfold fragile_fee_of, _compute_subtotal_and_fragile_fee.
  destruct (fold_subtotal_step (items inv) 0.0 0.0) as [_ ->]. ring.
Qed.

Lemma clamp_nonneg g : 0 <= (if ltb g 0 then 0 else g).
Proof.
  destruct (ltb g 0) eqn:E; [apply Qle_refl | apply ltb_ge, E].
Qed.

(** C1: on an invoice that passes validation [compute_total] returns the sum
    subtotal + shipping + fragile_fee + tax - discount, replaced by 0 when
    that sum is negative; the subtotal is the sum of unit_price x qty over
    the items and the fragile fee the sum of 5.0 x qty over the fragile
    items; the returned total is not negative. *)
Theorem compute_total_formula self inv :
  _validate (Some inv) = [] ->
  exists total warnings,
    compute_total self (Some inv) = Return total warnings
    /\ (let gross :=
          subtotal_of inv + shipping_of inv + fragile_fee_of inv
          + tax_of self inv - discount_of self inv in
        (gross < 0 -> total = 0) /\ (0 <= gross -> total = gross))
    /\ subtotal_of inv == spec_subtotal (items inv)
    /\ fragile_fee_of inv == spec_fragile_fee (items inv)
    /\ 0 <= total.
Proof.
  intros Hv. rewrite (compute_total_valid self inv Hv).
  do 2 eexists. split; [reflexivity |].
  fold (gross_total self inv).
  repeat split.
  - intros Hneg. apply ltb_lt in Hneg. now rewrite Hneg.
  - intros Hpos. apply ltb_ge in Hpos. now rewrite Hpos.
  - apply subtotal_of_spec.
  - apply fragile_fee_of_spec.
  - apply clamp_nonneg.
Qed.

(** Scenario 1 of the specification: one book line of 2 x 100 shipped to
    the US totals 200 + 8 + 0 + 16 - 0. *)
Lemma compute_total_formula_witness :
  exists total warnings,
    compute_total __init__ (Some us_invoice) = Return total warnings
    /\ total == 224 /\ 0 <= total.
Proof.
  destruct (compute_total_formula __init__ us_invoice eq_refl)
    as (total & warnings & Hrun & [_ Hgross] & _ & _ & Hpos).
  exists total, warnings. repeat split; try assumption.
  rewrite Hgross; [reflexivity | discriminate].
Defined.

(** ** Shipping *)

Create HintDb pricing.
#[local] Hint Constructors shipping_row : pricing.

Ltac by_country c :=
  destruct (String.eqb_spec c "TH") as [-> | ?];
  [| destruct (String.eqb_spec c "JP") as [-> | ?];
     [| destruct (String.eqb_spec c "US") as [-> | ?]]].

Ltac by_bracket s bound :=
  destruct (ltb_reflect s bound) as [? | ?%Qnot_lt_le].

Lemma _compute_shipping_row country subtotal :
  shipping_row country subtotal (_compute_shipping country subtotal).
Proof.
  unfold _compute_shipping. by_country country.
  - by_bracket subtotal 500; auto with pricing.
  - by_bracket subtotal 4000; auto with pricing.
  - by_bracket subtotal 100; [auto with pricing |].
    by_bracket subtotal 300; auto with pricing.
  - by_bracket subtotal 200; auto with pricing.
Qed.

Lemma shipping_row_functional country subtotal fee fee' :
  shipping_row country subtotal fee -> shipping_row country subtotal fee' ->
  fee = fee'.
Proof.
  intros H H'.
  destruct H; inversion H'; subst; try reflexivity; try congruence;
    exfalso; lra.
Qed.

(** C3: the fee computed by [_compute_shipping] is the one the shipping
    table gives for the country and subtotal, and the table gives no other:
    TH 60 below 500, JP 600 below 4000, US 15 below 100 and 8 from 100 to
    below 300, any other country 25 below 200, and 0 from the bound on. *)
Theorem _compute_shipping_table country subtotal fee :
  shipping_row country subtotal fee <-> fee = _compute_shipping country subtotal.
Proof.
  split.
  - intros H. eapply shipping_row_functional; [exact H |].
    apply _compute_shipping_row.
  - intros ->. apply _compute_shipping_row.
Qed.

(** The bounds are exclusive: at exactly the bound the fee is 0, just below
    it the bracket's fee. *)
Lemma _compute_shipping_bounds :
  _compute_shipping "TH" 500 = 0 /\ _compute_shipping "TH" 499.99 = 60
  /\ _compute_shipping "JP" 4000 = 0 /\ _compute_shipping "JP" 3999.99 = 600
  /\ _compute_shipping "US" 100 = 8 /\ _compute_shipping "US" 99.99 = 15
  /\ _compute_shipping "US" 300 = 0 /\ _compute_shipping "US" 299.99 = 8
  /\ _compute_shipping "DE" 200 = 0 /\ _compute_shipping "DE" 199.99 = 25.
Proof. repeat split. Qed.

(** The row of the table that scenario 1 of the specification uses. *)
Lemma _compute_shipping_table_witness : shipping_row "US" 200 8.
Proof. apply (_compute_shipping_table "US" 200 8). reflexivity. Defined.

(** ** Membership discount *)

(** C4: the membership discount is 3% of the subtotal for gold, 5% for
    platinum, and for every other membership 20 when the subtotal exceeds
    3000 and 0 when it does not. *)
Theorem _compute_membership_discount_rule membership subtotal :
  (membership = "gold" ->
   _compute_membership_discount membership subtotal = subtotal * (3 # 100))
  /\ (membership = "platinum" ->
      _compute_membership_discount membership subtotal = subtotal * (5 # 100))
  /\ (membership <> "gold" -> membership <> "platinum" ->
      (3000 < subtotal ->
       _compute_membership_discount membership subtotal = 20)
      /\ (subtotal <= 3000 ->
          _compute_membership_discount membership subtotal == 0)).
Proof.
  unfold _compute_membership_discount.
  split; [now intros -> | split; [now intros -> |]].
  intros Hg Hp.
  apply String.eqb_neq in Hg as ->. apply String.eqb_neq in Hp as ->.
  split; intros Hs.
  - apply ltb_lt in Hs. now rewrite Hs.
  - apply ltb_ge in Hs. now rewrite Hs.
Qed.

(** The three tiers on concrete subtotals, and the strict bound at 3000. *)
Lemma _compute_membership_discount_rule_witness :
  _compute_membership_discount "gold" 1000 == 30
  /\ _compute_membership_discount "platinum" 1000 == 50
  /\ _compute_membership_discount "regular" 3000.01 = 20
  /\ _compute_membership_discount "regular" 3000 == 0.
Proof.
  destruct (_compute_membership_discount_rule "gold" 1000) as (Hg & _ & _).
  destruct (_compute_membership_discount_rule "platinum" 1000) as (_ & Hp & _).
  destruct (_compute_membership_discount_rule "regular" 3000.01)
    as (_ & _ & Hhi).
  destruct (_compute_membership_discount_rule "regular" 3000) as (_ & _ & Hlo).
  split; [| split; [| split]].
  - rewrite Hg; reflexivity.
  - rewrite Hp; reflexivity.
  - apply Hhi; [discriminate | discriminate | reflexivity].
  - apply Hlo; [discriminate | discriminate | discriminate].
Defined.

(** ** Tax *)

Lemma spec_tax_rate_pos country : 0 < spec_tax_rate country.
Proof. unfold spec_tax_rate. repeat case_decide; reflexivity. Qed.

Lemma _compute_tax_rate country subtotal discount :
  _compute_tax country subtotal discount
  = (subtotal - discount) * spec_tax_rate country.
Proof.
  unfold _compute_tax, spec_tax_rate. by_country country; try reflexivity.
  rewrite !decide_False by assumption. reflexivity.
Qed.

(** C5: the tax is (subtotal - discount) x rate with rate 0.07 for TH, 0.10
    for JP, 0.08 for US and 0.05 for any other country; the base is used as
    it is, so a discount above the subtotal gives a negative tax. *)
Theorem _compute_tax_rule country subtotal discount :
  exists rate,
    _compute_tax country subtotal discount = (subtotal - discount) * rate
    /\ (country = "TH" -> rate = 0.07)
    /\ (country = "JP" -> rate = 0.10)
    /\ (country = "US" -> rate = 0.08)
    /\ (country <> "TH" -> country <> "JP" -> country <> "US" -> rate = 0.05)
    /\ (subtotal < discount -> _compute_tax country subtotal discount < 0).
Proof.
  exists (spec_tax_rate country).
  split; [apply _compute_tax_rate |].
  unfold spec_tax_rate.
  split; [now intros -> | split; [now intros -> | split; [now intros -> |]]].
  split.
  - intros. now rewrite !decide_False by assumption.
  - fold (spec_tax_rate country). intros Hlt. rewrite _compute_tax_rate.
    pose proof (spec_tax_rate_pos country) as Hr.
    assert (0 < (discount - subtotal) * spec_tax_rate country) as Hpos.
    { apply Qmult_lt_0_compat; [lra | exact Hr]. }
    assert ((subtotal - discount) * spec_tax_rate country
            == - ((discount - subtotal) * spec_tax_rate country)) as ->
      by ring.
    lra.
Qed.

(** A discount of 150 on a subtotal of 100 in JP: tax (100 - 150) x 0.10. *)
Lemma _compute_tax_rule_witness :
  _compute_tax "JP" 100 150 == -5 /\ _compute_tax "JP" 100 150 < 0.
Proof.
  destruct (_compute_tax_rule "JP" 100 150) as (rate & Htax & _ & Hjp & _ & _ & Hneg).
  split.
  - rewrite Htax, Hjp; reflexivity.
  - apply Hneg. reflexivity.
Defined.

(** ** Coupons *)

Lemma lstrip_all_space s : all_space s = true -> lstrip s = "".
Proof.
  induction s as [| c s IH]; simpl; [reflexivity |].
  intros [Hc Hs]%andb_true_iff. rewrite Hc. auto.
Qed.

Lemma strip_all_space s : all_space s = true -> strip s = "".
Proof. intros H. unfold strip. now rewrite lstrip_all_space. Qed.

Lemma lstrip_app_space l s : all_space l = true -> lstrip (l +:+ s) = lstrip s.
Proof.
  induction l as [| c l IH]; simpl; [reflexivity |].
  intros [Hc Hl]%andb_true_iff. rewrite Hc. auto.
Qed.

Lemma rstrip_all_space r : all_space r = true -> rstrip r = "".
Proof.
  induction r as [| c r IH]; simpl; [reflexivity |].
  intros [Hc Hr]%andb_true_iff. now rewrite IH, Hc.
Qed.

Lemma rstrip_app_space s r : all_space r = true -> rstrip (s +:+ r) = rstrip s.
Proof.
  intros Hr. induction s as [| c s IH]; simpl.
  - now apply rstrip_all_space.
  - now rewrite IH.
Qed.

(** Surrounding whitespace does not survive [strip] when the first and the
    last character of the code are not whitespace. *)
Lemma strip_surrounded l code r :
  all_space l = true -> all_space r = true ->
  lstrip code = code -> rstrip code = code ->
  strip (l +:+ code +:+ r) = code.
Proof.
  intros Hl Hr Hlc Hrc. unfold strip.
  rewrite lstrip_app_space by assumption.
  destruct code as [| c code]; simpl.
  - now rewrite lstrip_all_space.
  - simpl in Hlc. destruct (isspace c) eqn:Hc.
    + exfalso. assert (String.length (lstrip code) <= String.length code)%nat.
      { clear. induction code as [| d code IH]; simpl; [lia |].
        destruct (isspace d); simpl; lia. }
      rewrite Hlc in H. simpl in H. lia.
    + change (String c (code +:+ r)) with (String c code +:+ r).
      now rewrite rstrip_app_space.
Qed.

(** The keys of the table built by [__init__]. *)
Lemma default_coupon_rate code rate :
  _coupon_rate __init__ !! code = Some rate ->
  (code = "WELCOME10" /\ rate = 0.10) \/ (code = "VIP20" /\ rate = 0.20)
  \/ (code = "STUDENT5" /\ rate = 0.05).
Proof.
  unfold __init__; simpl.
  rewrite !lookup_insert_Some, lookup_empty. intuition congruence.
Qed.

Lemma default_coupon_stripped code rate :
  _coupon_rate __init__ !! code = Some rate ->
  lstrip code = code /\ rstrip code = code /\ code <> "".
Proof.
  intros [[-> _] | [[-> _] | [-> _]]]%default_coupon_rate;
    repeat split; discriminate.
Qed.

Lemma falsy_false s : s <> "" -> falsy s = false.
Proof. destruct s; [congruence | reflexivity]. Qed.

Lemma _apply_coupon_known self c rate subtotal warnings :
  strip c <> "" -> _coupon_rate self !! strip c = Some rate ->
  _apply_coupon self (Some c) subtotal warnings = (subtotal * rate, warnings).
Proof.
  intros Hne Hk. unfold _apply_coupon. now rewrite falsy_false, Hk.
Qed.

Lemma _apply_coupon_unknown self c subtotal warnings :
  strip c <> "" -> _coupon_rate self !! strip c = None ->
  _apply_coupon self (Some c) subtotal warnings
  = (0.0, warnings ++ ["Unknown coupon"]).
Proof.
  intros Hne Hk. unfold _apply_coupon. now rewrite falsy_false, Hk.
Qed.

(** C6: with the table of [__init__], an absent or whitespace-only coupon
    gives discount 0 and leaves the warnings as they were; a code of the
    table surrounded by whitespace gives subtotal x rate, as the code alone
    does, and leaves the warnings as they were; a coupon whose trimmed text
    is not empty and not in the table gives discount 0 and appends the one
    warning "Unknown coupon". *)
Theorem _apply_coupon_rule subtotal warnings :
  _apply_coupon __init__ None subtotal warnings = (0.0, warnings)
  /\ (forall c, all_space c = true ->
      _apply_coupon __init__ (Some c) subtotal warnings = (0.0, warnings))
  /\ (forall code rate l r,
      _coupon_rate __init__ !! code = Some rate ->
      all_space l = true -> all_space r = true ->
      _apply_coupon __init__ (Some (l +:+ code +:+ r)) subtotal warnings
      = (subtotal * rate, warnings)
      /\ _apply_coupon __init__ (Some code) subtotal warnings
         = (subtotal * rate, warnings))
  /\ (forall c, strip c <> "" -> _coupon_rate __init__ !! strip c = None ->
      _apply_coupon __init__ (Some c) subtotal warnings
      = (0.0, warnings ++ ["Unknown coupon"])).
Proof.
  split; [reflexivity | split; [| split]].
  - intros c Hc. unfold _apply_coupon. now rewrite strip_all_space.
  - intros code rate l r Hk Hl Hr.
    destruct (default_coupon_stripped _ _ Hk) as (Hlc & Hrc & Hne).
    assert (strip (l +:+ code +:+ r) = code) as Hs
      by now apply strip_surrounded.
    assert (strip code = code) as Hs'
      by (unfold strip; now rewrite Hlc).
    split; apply _apply_coupon_known; rewrite ?Hs, ?Hs'; assumption.
  - intros c Hne Hk. now apply _apply_coupon_unknown.
Qed.

(** The specification's examples: " VIP20 " against "VIP20", a blank
    coupon, and the unrecognised "BOGUS". *)
Lemma _apply_coupon_rule_witness :
  _apply_coupon __init__ (Some " VIP20 ") 1000 [] = (1000 * 0.20, [])
  /\ _apply_coupon __init__ (Some "VIP20") 1000 [] = (1000 * 0.20, [])
  /\ _apply_coupon __init__ (Some "   ") 1000 [] = (0.0, [])
  /\ _apply_coupon __init__ (Some "BOGUS") 1000 [] = (0.0, ["Unknown coupon"]).
Proof.
  destruct (_apply_coupon_rule 1000 []) as (_ & Hblank & Hknown & Hunknown).
  destruct (Hknown "VIP20" 0.20 " " " " eq_refl eq_refl eq_refl) as [H1 H2].
  split; [exact H1 | split; [exact H2 | split]].
  - apply Hblank. reflexivity.
  - apply (Hunknown "BOGUS"); [discriminate | reflexivity].
Defined.

(** ** Warnings *)

Lemma _apply_coupon_warnings self c subtotal :
  snd (_apply_coupon self c subtotal []) = []
  \/ snd (_apply_coupon self c subtotal []) = ["Unknown coupon"].
Proof.
  unfold _apply_coupon.
  destruct c as [c |]; [| now left].
  destruct (falsy (strip c)); [now left |].
  destruct (_coupon_rate self !! strip c); [now left | now right].
Qed.

Lemma not_premium_spec m :
  not_premium m = true <-> m <> "gold" /\ m <> "platinum".
Proof.
  unfold not_premium.
  rewrite negb_true_iff, orb_false_iff, !String.eqb_neq. reflexivity.
Qed.

Lemma upgrade_condition subtotal m :
  ltb 10000 subtotal && not_premium m = true
  <-> 10000 < subtotal /\ m <> "gold" /\ m <> "platinum".
Proof. now rewrite andb_true_iff, ltb_lt, not_premium_spec. Qed.

(** Refutes the membership of a text in a list of other texts. *)
Ltac no_such_elem H :=
  repeat (apply elem_of_cons in H as [H | H]; [discriminate H |]);
  apply elem_of_nil in H; destruct H.

(** C8: on a valid invoice the returned warnings contain "Consider
    membership upgrade" exactly when the subtotal exceeds 10000 and the
    membership is neither gold nor platinum; when "Unknown coupon" is
    returned too, it comes first. *)
Theorem upgrade_warning_rule self inv :
  _validate (Some inv) = [] ->
  exists total warnings,
    compute_total self (Some inv) = Return total warnings
    /\ ("Consider membership upgrade" ∈ warnings
        <-> 10000 < subtotal_of inv
            /\ membership inv <> "gold" /\ membership inv <> "platinum")
    /\ ("Unknown coupon" ∈ warnings ->
        "Consider membership upgrade" ∈ warnings ->
        warnings = ["Unknown coupon"; "Consider membership upgrade"]).
Proof.
  intros Hv. rewrite (compute_total_valid self inv Hv).
  do 2 eexists. split; [reflexivity |].
  unfold warnings_of.
  pose proof (upgrade_condition (subtotal_of inv) (membership inv)) as Hup.
  destruct (ltb 10000 (subtotal_of inv) && not_premium (membership inv));
    destruct (_apply_coupon_warnings self (coupon inv) (subtotal_of inv))
      as [-> | ->]; simpl; (split; [split |]).
  - intros _. now apply Hup.
  - intros _. apply list_elem_of_here.
  - intros H. no_such_elem H.
  - intros _. now apply Hup.
  - intros _. apply list_elem_of_further, list_elem_of_here.
  - reflexivity.
  - intros H. no_such_elem H.
  - intros H. apply Hup in H. discriminate H.
  - intros H. no_such_elem H.
  - intros H. no_such_elem H.
  - intros H. apply Hup in H. discriminate H.
  - intros _ H. no_such_elem H.
Qed.

(** A subtotal of 12000 with a regular membership (scenario 2). *)
Lemma upgrade_warning_rule_witness :
  exists total warnings,
    compute_total __init__ (Some big_invoice) = Return total warnings
    /\ "Consider membership upgrade" ∈ warnings.
Proof.
  destruct (upgrade_warning_rule __init__ big_invoice eq_refl)
    as (total & warnings & Hrun & Hiff & _).
  exists total, warnings. split; [exact Hrun |].
  apply Hiff. split; [reflexivity | split; discriminate].
Defined.

(** ** Calls on the heap

    The heap-based methods of [Stateful], run from a heap with services
    [sv], invoices [iv] and lists [L]. *)

Section Calls.

Variables (sv : gmap positive InvoiceService) (iv : gmap positive Invoice).

Local Abbreviation heap := (Stateful.mkHeap sv iv).
Local Abbreviation done a h := (Stateful.Normal a, h).

(** An append to a list object whose elements are known. *)
Lemma append_run L l ps x :
  Stateful.append l x (heap (<[l := ps]> L))
  = done tt (heap (<[l := ps ++ [x]]> L)).
Proof.
  unfold Stateful.append; simpl.
  now rewrite lookup_insert_eq, insert_insert_eq.
Qed.

Lemma when_append_run L l ps (b : bool) x :
  Stateful.when b (Stateful.append l x) (heap (<[l := ps]> L))
  = done tt (heap (<[l := if b then ps ++ [x] else ps]> L)).
Proof. destruct b; [apply append_run | reflexivity]. Qed.

(** The body of the validation loop does to the list object what
    [_validate_item] does to the list. *)
Lemma validate_loop_run L l its ps :
  Stateful.for_each its (fun it =>
    Stateful.bind
      (Stateful.when (falsy (sku it))
         (Stateful.append l "Item sku is missing")) (fun _ =>
    Stateful.bind
      (Stateful.when (qty it <=? 0)%Z
         (Stateful.append l ("Invalid qty for " +:+ sku it))) (fun _ =>
    Stateful.bind
      (Stateful.when (ltb (unit_price it) 0)
         (Stateful.append l ("Invalid price for " +:+ sku it))) (fun _ =>
    Stateful.when (negb (known_category (category it)))
      (Stateful.append l ("Unknown category for " +:+ sku it))))))
    (heap (<[l := ps]> L))
  = done tt (heap (<[l := fold_left _validate_item its ps]> L)).
Proof.
  revert ps. induction its as [| it its IH]; intros ps; [reflexivity |].
  cbn [Stateful.for_each fold_left]. unfold Stateful.bind at 1 2 3 4.
  rewrite !when_append_run. apply IH.
Qed.

(** [_validate] allocates one list object and leaves in it the problems
    that the pure [_validate] computes from the invoice object. *)
Lemma _validate_run L inv :
  Stateful.allocated (heap L) inv ->
  Stateful._validate inv (heap L)
  = done (fresh (dom L))
      (heap (<[fresh (dom L) := _validate (Stateful.referent (heap L) inv)]> L)).
Proof.
  intros Halloc. unfold Stateful._validate, Stateful.bind at 1.
  cbn [Stateful.new_list Stateful.lists Stateful.services Stateful.invoices].
  destruct inv as [r |].
  - destruct (Halloc r eq_refl) as [i Hi]. simpl in Hi.
    cbn [Stateful.referent Stateful.invoices]. rewrite Hi.
    unfold Stateful.bind at 1, Stateful.getattr at 1; simpl; rewrite Hi.
    unfold Stateful.bind at 1. rewrite when_append_run.
    unfold Stateful.bind at 1, Stateful.getattr at 1; simpl; rewrite Hi.
    unfold Stateful.bind at 1. rewrite when_append_run.
    unfold Stateful.bind at 1, Stateful.getattr at 1; simpl; rewrite Hi.
    unfold Stateful.bind at 1. rewrite when_append_run.
    unfold Stateful.bind at 1, Stateful.getattr at 1; simpl; rewrite Hi.
    unfold Stateful.bind at 1. rewrite validate_loop_run.
    unfold Stateful.ret, _validate. do 3 f_equal.
    destruct (items i); reflexivity.
  - unfold Stateful.bind. rewrite append_run. reflexivity.
Qed.

(** [_apply_coupon] returns the discount of the pure [_apply_coupon] and
    leaves its warnings in the caller's list object. *)
Lemma _apply_coupon_run L self svc cp subtotal w ws :
  sv !! self = Some svc ->
  Stateful._apply_coupon self cp subtotal w (heap (<[w := ws]> L))
  = done (fst (_apply_coupon svc cp subtotal ws))
      (heap (<[w := snd (_apply_coupon svc cp subtotal ws)]> L)).
Proof.
  intros Hself. unfold Stateful._apply_coupon, _apply_coupon.
  destruct cp as [c |]; [| reflexivity].
  destruct (falsy (strip c)); [reflexivity |].
  unfold Stateful.bind at 1, Stateful.getself; simpl. rewrite Hself.
  destruct (_coupon_rate svc !! strip c); [reflexivity |].
  unfold Stateful.bind. now rewrite append_run.
Qed.

Lemma fresh_twice (L : gmap positive (list string)) (x : list string) :
  fresh (dom (<[fresh (dom L) := x]> L)) <> fresh (dom L).
Proof.
  intros Heq.
  apply (is_fresh (dom (<[fresh (dom L) := x]> L))).
  rewrite Heq at 1. rewrite dom_insert_L. set_solver.
Qed.

(** Reads one attribute of the invoice object known by [Hi]. *)
Ltac read_attr Hi :=
  unfold Stateful.bind at 1, Stateful.getattr at 1;
  cbv beta iota zeta; cbn [Stateful.invoices]; rewrite Hi; cbv beta iota zeta.

(** One call of [compute_total]: what the caller observes is the outcome of
    the pure [compute_total] on the service object and the invoice object;
    services and invoices are left as they were, every list object that
    existed keeps its elements, and the returned list object is new. *)
Lemma compute_total_run L self inv svc :
  sv !! self = Some svc -> Stateful.allocated (heap L) inv ->
  exists c L',
    Stateful.compute_total self inv (heap L) = (c, heap L')
    /\ Stateful.observe c (heap L')
       = compute_total svc (Stateful.referent (heap L) inv)
    /\ (forall l, l ∈ dom L -> L' !! l = L !! l)
    /\ (forall total w, c = Stateful.Normal (total, w) ->
        (w ∉ dom L) /\ (w ∈ dom L')).
Proof.
  intros Hself Halloc.
  set (w := fresh (dom L)).
  set (p := fresh (dom (<[w := []]> L))).
  assert (p <> w) as Hpw by apply fresh_twice.
  assert (w ∉ dom L) as Hw by apply is_fresh.
  assert (p ∉ dom L) as Hp.
  { intros Hin. apply (is_fresh (dom (<[w := []]> L))).
    fold p. rewrite dom_insert_L. set_solver. }
  assert (forall x y l, l ∈ dom L ->
            (<[w := x]> (<[p := y]> L) : gmap positive (list string)) !! l
            = L !! l) as Hframe.
  { intros x y l Hl. rewrite !lookup_insert_ne; [reflexivity | |];
      intros ->; contradiction. }
  unfold Stateful.compute_total, Stateful.bind at 1.
  cbn [Stateful.new_list Stateful.lists Stateful.services Stateful.invoices].
  fold w. unfold Stateful.bind at 1.
  rewrite (_validate_run (<[w := []]> L) inv) by exact Halloc.
  fold p. unfold Stateful.bind at 1, Stateful.read_list at 1.
  cbn [Stateful.lists]. rewrite lookup_insert_eq.
  cbn [default from_option]. unfold id.
  rewrite (insert_insert_ne _ p w) by exact Hpw.
  destruct inv as [r |].
  - destruct (Halloc r eq_refl) as [i Hi]. cbn [Stateful.invoices] in Hi.
    cbn [Stateful.referent Stateful.invoices]. rewrite Hi.
    destruct (_validate (Some i)) as [| pb pbs] eqn:Hv.
    + rewrite (compute_total_valid svc i Hv).
      unfold gross_total, warnings_of, tax_of, discount_of, shipping_of,
        fragile_fee_of, subtotal_of.
      read_attr Hi.
      destruct (_compute_subtotal_and_fragile_fee (items i)) as [subtotal fee].
      cbn [fst snd].
      do 3 read_attr Hi.
      unfold Stateful.bind at 1.
      rewrite (_apply_coupon_run _ self svc) by exact Hself.
      read_attr Hi. unfold Stateful.bind at 1.
      destruct (ltb 10000 subtotal); cbn [andb].
      * read_attr Hi. rewrite when_append_run. unfold Stateful.ret.
        do 2 eexists. split; [reflexivity |].
        split; [| split].
        -- cbn [Stateful.observe Stateful.lists].
           now rewrite lookup_insert_eq.
        -- intros l Hl. now apply Hframe.
        -- intros total w' [= _ <-]. split; [exact Hw |].
           rewrite dom_insert_L. set_solver.
      * unfold Stateful.ret.
        do 2 eexists. split; [reflexivity |].
        split; [| split].
        -- cbn [Stateful.observe Stateful.lists].
           now rewrite lookup_insert_eq.
        -- intros l Hl. now apply Hframe.
        -- intros total w' [= _ <-]. split; [exact Hw |].
           rewrite dom_insert_L. set_solver.
    + rewrite <- Hv.
      rewrite compute_total_invalid by (rewrite Hv; discriminate).
      do 2 eexists. split; [reflexivity |].
      split; [reflexivity | split].
      * intros l Hl. now apply Hframe.
      * intros total w' [=].
  - do 2 eexists. split; [reflexivity |].
    split; [reflexivity | split].
    + intros l Hl. now apply Hframe.
    + intros total w' [=].
Qed.
End Calls.

(** ** Determinism *)

(** C9: [compute_total] is deterministic.  Called twice with the same
    service object and the same invoice argument, it gives the caller the
    same outcome both times: the same total with the same warnings, or the
    same validation error.  The first call leaves the service and the
    invoice as they were; the list objects may even have been changed at
    will between the calls.  The second call in turn changes no service, no
    invoice and no list object that existed before it, the warnings
    returned by the first call included. *)
Theorem compute_total_repeatable h self inv svc c1 h1 h1' c2 h2 :
  Stateful.services h !! self = Some svc -> Stateful.allocated h inv ->
  Stateful.compute_total self inv h = (c1, h1) ->
  Stateful.services h1' = Stateful.services h1 ->
  Stateful.invoices h1' = Stateful.invoices h1 ->
  Stateful.compute_total self inv h1' = (c2, h2) ->
  Stateful.observe c1 h1 = Stateful.observe c2 h2
  /\ Stateful.services h2 = Stateful.services h
  /\ Stateful.invoices h2 = Stateful.invoices h
  /\ (forall l, l ∈ dom (Stateful.lists h1') ->
      Stateful.lists h2 !! l = Stateful.lists h1' !! l).
Proof.
  destruct h as [sv iv L], h1' as [sv' iv' L'].
  cbn [Stateful.services Stateful.invoices Stateful.lists].
  intros Hself Halloc Hrun1 Hsv Hiv Hrun2.
  destruct (compute_total_run sv iv L self inv svc Hself Halloc)
    as (d1 & L1 & Hd1 & Hobs1 & _ & _).
  rewrite Hd1 in Hrun1. injection Hrun1 as <- <-.
  cbn [Stateful.services Stateful.invoices] in Hsv, Hiv. subst sv' iv'.
  destruct (compute_total_run sv iv L' self inv svc Hself Halloc)
    as (d2 & L2 & Hd2 & Hobs2 & Hframe2 & _).
  rewrite Hd2 in Hrun2. injection Hrun2 as <- <-.
  cbn [Stateful.services Stateful.invoices Stateful.lists].
  split; [| split; [reflexivity | split; [reflexivity | exact Hframe2]]].
  rewrite Hobs1, Hobs2. reflexivity.
Qed.

(** Two calls in a row on the invoice of scenario 2, with the service built
    by [__init__]. *)
Lemma compute_total_repeatable_witness :
  let run1 := Stateful.compute_total 1 (Some 1%positive) office_heap in
  let run2 := Stateful.compute_total 1 (Some 1%positive) (snd run1) in
  Stateful.observe (fst run1) (snd run1)
  = Stateful.observe (fst run2) (snd run2).
Proof.
  intros run1 run2.
  apply (compute_total_repeatable office_heap 1 (Some 1%positive) __init__
           (fst run1) (snd run1) (snd run1) (fst run2) (snd run2)).
  - reflexivity.
  - intros r [= <-]. exists big_invoice. reflexivity.
  - apply surjective_pairing.
  - reflexivity.
  - reflexivity.
  - apply surjective_pairing.
Defined.

(** ** Bounds on a valid invoice *)

Lemma line_amount_nonneg it :
  (0 < qty it)%Z /\ 0 <= unit_price it ->
  0 <= unit_price it * inject_Z (qty it) /\ 0 <= 5.0 * inject_Z (qty it).
Proof.
  intros [Hq Hp].
  assert (0 <= inject_Z (qty it)) as Hq'.
  { change 0 with (inject_Z 0). rewrite <- Zle_Qle. lia. }
  split; apply Qmult_le_0_compat; try assumption. discriminate.
Qed.

Lemma spec_sums_nonneg its :
  Forall (fun it => (0 < qty it)%Z /\ 0 <= unit_price it) its ->
  0 <= spec_subtotal its /\ 0 <= spec_fragile_fee its.
Proof.
  unfold spec_subtotal, spec_fragile_fee.
  induction 1 as [| it its Hit _ [IHs IHf]]; [split; discriminate |].
  destruct (line_amount_nonneg it Hit) as [Ha Hb].
  rewrite filter_cons. split.
  - cbn [map Qsum]. lra.
  - destruct (decide (fragile it = true)); cbn [map Qsum]; lra.
Qed.

Lemma valid_amounts_nonneg inv :
  _validate (Some inv) = [] -> 0 <= subtotal_of inv /\ 0 <= fragile_fee_of inv.
Proof.
  intros (_ & _ & _ & Hits)%valid_invoice.
  rewrite subtotal_of_spec, fragile_fee_of_spec.
  now apply spec_sums_nonneg.
Qed.

Lemma _compute_shipping_nonneg country subtotal :
  0 <= _compute_shipping country subtotal.
Proof.
  destruct (_compute_shipping_row country subtotal); discriminate.
Qed.

(** The rate that [_apply_coupon] applies with the table of [__init__]
    depends on the coupon only, and is one of 0, 0.05, 0.10 and 0.20. *)
Lemma default_coupon_discount c :
  exists rate,
    (forall subtotal,
       fst (_apply_coupon __init__ c subtotal []) == subtotal * rate)
    /\ (rate = 0 \/ rate = 0.05 \/ rate = 0.10 \/ rate = 0.20).
Proof.
  unfold _apply_coupon. destruct c as [c |].
  - destruct (falsy (strip c)).
    + exists 0. split; [intros; simpl; ring | auto].
    + destruct (_coupon_rate __init__ !! strip c) as [rate |] eqn:Hk.
      * exists rate. split; [intros; simpl; ring |].
        apply default_coupon_rate in Hk as [[_ ->] | [[_ ->] | [_ ->]]]; auto.
      * exists 0. split; [intros; simpl; ring | auto].
  - exists 0. split; [intros; simpl; ring | auto].
Qed.

(** The four cases of the membership discount. *)
Lemma _compute_membership_discount_cases m subtotal :
  (m = "gold" /\ _compute_membership_discount m subtotal == subtotal * 0.03)
  \/ (m = "platinum"
      /\ _compute_membership_discount m subtotal == subtotal * 0.05)
  \/ (m <> "gold" /\ m <> "platinum" /\ 3000 < subtotal
      /\ _compute_membership_discount m subtotal == 20)
  \/ (m <> "gold" /\ m <> "platinum" /\ subtotal <= 3000
      /\ _compute_membership_discount m subtotal == 0).
Proof.
  unfold _compute_membership_discount.
  destruct (String.eqb_spec m "gold") as [-> | Hg]; [left; easy |].
  destruct (String.eqb_spec m "platinum") as [-> | Hp]; [right; left; easy |].
  by_bracket 3000 subtotal; [right; right; left | right; right; right]; easy.
Qed.

(** With the table of [__init__] the discount of a non-negative subtotal
    stays below the subtotal: the taxable base is not negative. *)
Lemma default_discount_bound inv :
  0 <= subtotal_of inv ->
  (discount_of __init__ inv <= 0.25 * subtotal_of inv
   \/ (3000 < subtotal_of inv
       /\ discount_of __init__ inv <= 20 + 0.20 * subtotal_of inv))
  /\ 0 <= subtotal_of inv - discount_of __init__ inv.
Proof.
  intros Hs. unfold discount_of.
  destruct (default_coupon_discount (coupon inv)) as (rate & Hcd & Hrate).
  specialize (Hcd (subtotal_of inv)).
  destruct (_compute_membership_discount_cases (membership inv) (subtotal_of inv))
    as [[_ Hmd] | [[_ Hmd] | [(_ & _ & Hlt & Hmd) | (_ & _ & Hle & Hmd)]]];
    destruct Hrate as [-> | [-> | [-> | ->]]];
    (split; [first [left; lra | right; split; [assumption | lra]] | lra]).
Qed.

Lemma default_gross_total inv :
  gross_total __init__ inv
  == (subtotal_of inv - discount_of __init__ inv)
     * (1 + spec_tax_rate (country inv))
     + shipping_of inv + fragile_fee_of inv.
Proof.
  unfold gross_total, tax_of. rewrite _compute_tax_rate. ring.
Qed.

Lemma default_gross_total_nonneg inv :
  _validate (Some inv) = [] -> 0 <= gross_total __init__ inv.
Proof.
  intros Hv.
  destruct (valid_amounts_nonneg inv Hv) as [Hs Hf].
  destruct (default_discount_bound inv Hs) as [_ Hbase].
  rewrite default_gross_total.
  pose proof (spec_tax_rate_pos (country inv)) as Hr.
  pose proof (_compute_shipping_nonneg (country inv) (subtotal_of inv)) as Hsh.
  fold (shipping_of inv) in Hsh.
  assert (0 <= (subtotal_of inv - discount_of __init__ inv)
               * (1 + spec_tax_rate (country inv))) as Hprod
    by (apply Qmult_le_0_compat; [assumption | lra]).
  lra.
Qed.

Lemma default_total_unclamped inv :
  _validate (Some inv) = [] ->
  compute_total __init__ (Some inv)
  = Return (gross_total __init__ inv) (warnings_of __init__ inv).
Proof.
  intros Hv. rewrite (compute_total_valid _ _ Hv).
  pose proof (default_gross_total_nonneg inv Hv) as Hg.
  apply ltb_ge in Hg. now rewrite Hg.
Qed.

(** C10: with the table of [__init__], on an invoice that passes validation
    the sum subtotal + shipping + fragile_fee + tax - discount is not
    negative, so the test [total < 0] fails and the sum is returned as it
    is; the discount is at most 0.25 x subtotal, or at most
    20 + 0.20 x subtotal with subtotal above 3000. *)
Theorem clamp_unreachable inv :
  _validate (Some inv) = [] ->
  0 <= gross_total __init__ inv
  /\ ltb (gross_total __init__ inv) 0 = false
  /\ compute_total __init__ (Some inv)
     = Return (gross_total __init__ inv) (warnings_of __init__ inv)
  /\ (discount_of __init__ inv <= 0.25 * subtotal_of inv
      \/ (3000 < subtotal_of inv
          /\ discount_of __init__ inv <= 20 + 0.20 * subtotal_of inv)).
Proof.
  intros Hv.
  pose proof (default_gross_total_nonneg inv Hv) as Hg.
  destruct (valid_amounts_nonneg inv Hv) as [Hs _].
  destruct (default_discount_bound inv Hs) as [Hd _].
  split; [exact Hg | split; [now apply ltb_ge | split; [| exact Hd]]].
  now apply default_total_unclamped.
Qed.

(** Scenario 3 of the specification: coupon WELCOME10 on a subtotal of 1000
    in TH returns the unclamped 1000 + 0 + 0 + 63 - 100. *)
Lemma clamp_unreachable_witness :
  exists total warnings,
    compute_total __init__ (Some welcome_invoice) = Return total warnings
    /\ total == 963 /\ 0 <= total.
Proof.
  destruct (clamp_unreachable welcome_invoice eq_refl)
    as (Hpos & _ & Hrun & _).
  exists (gross_total __init__ welcome_invoice),
         (warnings_of __init__ welcome_invoice).
  split; [exact Hrun | split; [reflexivity | exact Hpos]].
Defined.

(** ** Raising one line *)

Lemma spec_subtotal_app pre it post :
  spec_subtotal (pre ++ it :: post)
  == spec_subtotal pre + unit_price it * inject_Z (qty it) + spec_subtotal post.
Proof.
  unfold spec_subtotal.
  induction pre as [| x pre IH]; cbn [app map Qsum]; [ring |].
  rewrite IH. ring.
Qed.

Lemma spec_fragile_fee_app pre it post :
  spec_fragile_fee (pre ++ it :: post)
  == spec_fragile_fee pre
     + (if fragile it then 5.0 * inject_Z (qty it) else 0)
     + spec_fragile_fee post.
Proof.
  unfold spec_fragile_fee.
  induction pre as [| x pre IH]; cbn [app]; rewrite !filter_cons.
  - rewrite filter_nil.
    destruct (fragile it); [rewrite decide_True by reflexivity
                           | rewrite decide_False by discriminate];
      cbn [map Qsum]; ring.
  - destruct (decide (fragile x = true)); cbn [map Qsum]; rewrite IH; ring.
Qed.

(** A raised line costs at least as much, in price and in fragile fee. *)
Lemma line_raised_amounts it it' :
  (0 < qty it)%Z /\ 0 <= unit_price it -> line_raised it it' ->
  unit_price it * inject_Z (qty it) <= unit_price it' * inject_Z (qty it')
  /\ (if fragile it then 5.0 * inject_Z (qty it) else 0)
     <= (if fragile it' then 5.0 * inject_Z (qty it') else 0).
Proof.
  intros [Hq Hp] (_ & _ & Hf & Hraise). rewrite Hf.
  assert (0 <= inject_Z (qty it)) as Hq0.
  { change 0 with (inject_Z 0). rewrite <- Zle_Qle. lia. }
  destruct Hraise as [[Hlt ->] | [-> Hlt]].
  - split; [| apply Qle_refl].
    apply Qmult_le_compat_r; [apply Qlt_le_weak, Hlt | exact Hq0].
  - assert (inject_Z (qty it) <= inject_Z (qty it')) as Hq'
      by (rewrite <- Zle_Qle; lia).
    split.
    + rewrite !(Qmult_comm (unit_price it)).
      apply Qmult_le_compat_r; assumption.
    + destruct (fragile it); [lra | apply Qle_refl].
Qed.

Lemma one_line_raised_amounts inv inv' :
  _validate (Some inv) = [] -> one_line_raised inv inv' ->
  subtotal_of inv <= subtotal_of inv'
  /\ fragile_fee_of inv <= fragile_fee_of inv'.
Proof.
  intros (_ & _ & _ & Hits)%valid_invoice.
  intros (_ & _ & _ & _ & _ & pre & it & it' & post & Hi & Hi' & Hraise).
  rewrite !subtotal_of_spec, !fragile_fee_of_spec, Hi, Hi'.
  rewrite !spec_subtotal_app, !spec_fragile_fee_app.
  rewrite Hi in Hits. apply Forall_app in Hits as [_ Hits].
  apply Forall_cons in Hits as [Hit _].
  destruct (line_raised_amounts it it' Hit Hraise) as [Ha Hb].
  split; lra.
Qed.

Lemma th_invoice_raised :
  one_line_raised (th_invoice 499) (th_invoice 500).
Proof.
  unfold one_line_raised. do 5 (split; [reflexivity |]).
  exists [], (book_line 499 1), (book_line 500 1), [].
  split; [reflexivity | split; [reflexivity |]].
  unfold line_raised. do 3 (split; [reflexivity |]).
  left. split; reflexivity.
Qed.

(** C7, as stated, fails: in TH a line of 1 x 499 totals 593.93 (shipping
    60, tax 34.93) and the same line at 500 totals 535 (shipping 0, tax 35):
    the raised invoice crosses the free-shipping bound. *)
Lemma total_decreases_across_shipping_bound :
  ~ total_never_decreases __init__.
Proof.
  intros Hmono.
  destruct (Hmono (th_invoice 499) (th_invoice 500) _ _ _ _
              eq_refl eq_refl th_invoice_raised eq_refl eq_refl) as [_ Hle].
  revert Hle. apply Qlt_not_le. reflexivity.
Qed.

(** The taxable base does not decrease when the subtotal grows inside one
    bracket of the membership discount. *)
Lemma default_base_monotone inv inv' :
  membership inv' = membership inv -> coupon inv' = coupon inv ->
  subtotal_of inv <= subtotal_of inv' ->
  (membership inv = "gold" \/ membership inv = "platinum"
   \/ (3000 < subtotal_of inv <-> 3000 < subtotal_of inv')) ->
  subtotal_of inv - discount_of __init__ inv
  <= subtotal_of inv' - discount_of __init__ inv'.
Proof.
  intros Hm Hc Hs Hbr. unfold discount_of. rewrite Hm, Hc.
  destruct (default_coupon_discount (coupon inv)) as (rate & Hcd & Hrate).
  pose proof (Hcd (subtotal_of inv)) as Hcd1.
  pose proof (Hcd (subtotal_of inv')) as Hcd2.
  clear Hcd.
  destruct (_compute_membership_discount_cases (membership inv) (subtotal_of inv))
    as [[Hg Hmd] | [[Hp Hmd] | [(Hg & Hp & Hlt & Hmd) | (Hg & Hp & Hle & Hmd)]]];
  destruct (_compute_membership_discount_cases (membership inv) (subtotal_of inv'))
    as [[Hg' Hmd'] | [[Hp' Hmd']
        | [(Hg' & Hp' & Hlt' & Hmd') | (Hg' & Hp' & Hle' & Hmd')]]];
    try congruence;
    try (destruct Hbr as [? | [? | Hbr]]; [congruence | congruence |]);
    destruct Hrate as [-> | [-> | [-> | ->]]];
    try lra;
    exfalso; try (apply Hbr in Hlt; lra); try (apply Hbr in Hlt'; lra).
Qed.

(** C7, amended: raising one unit price or one quantity of a valid invoice
    does not decrease the subtotal; with the table of [__init__] it does not
    decrease the total either when both invoices are charged in the same
    brackets (same shipping fee and, for a membership other than gold and
    platinum, the same side of the 3000 bound of the flat discount). *)
Theorem subtotal_monotone_total_within_brackets inv inv' :
  _validate (Some inv) = [] -> _validate (Some inv') = [] ->
  one_line_raised inv inv' ->
  subtotal_of inv <= subtotal_of inv'
  /\ (same_brackets inv inv' ->
      forall total warnings total' warnings',
        compute_total __init__ (Some inv) = Return total warnings ->
        compute_total __init__ (Some inv') = Return total' warnings' ->
        total <= total').
Proof.
  intros Hv Hv' Hraised.
  destruct (one_line_raised_amounts inv inv' Hv Hraised) as [Hs Hf].
  split; [exact Hs |].
  intros [Hship Hbr] total warnings total' warnings' Hrun Hrun'.
  rewrite (default_total_unclamped inv Hv) in Hrun.
  rewrite (default_total_unclamped inv' Hv') in Hrun'.
  injection Hrun as <- _. injection Hrun' as <- _.
  destruct Hraised as (_ & _ & Hcountry & Hm & Hc & _).
  pose proof (default_base_monotone inv inv' Hm Hc Hs Hbr) as Hbase.
  rewrite !default_gross_total, Hcountry.
  pose proof (spec_tax_rate_pos (country inv)) as Hr.
  assert (0 <= ((subtotal_of inv' - discount_of __init__ inv')
                - (subtotal_of inv - discount_of __init__ inv))
               * (1 + spec_tax_rate (country inv))) as Hprod
    by (apply Qmult_le_0_compat; lra).
  lra.
Qed.

(** Raising a TH line from 500 to 600: no bound is crossed, the subtotal
    grows and so does the total. *)
Lemma subtotal_monotone_total_within_brackets_witness :
  subtotal_of (th_invoice 500) <= subtotal_of (th_invoice 600)
  /\ forall total warnings total' warnings',
       compute_total __init__ (Some (th_invoice 500)) = Return total warnings ->
       compute_total __init__ (Some (th_invoice 600)) = Return total' warnings' ->
       total <= total'.
Proof.
  assert (one_line_raised (th_invoice 500) (th_invoice 600)) as Hraised.
  { unfold one_line_raised. do 5 (split; [reflexivity |]).
    exists [], (book_line 500 1), (book_line 600 1), [].
    split; [reflexivity | split; [reflexivity |]].
    unfold line_raised. do 3 (split; [reflexivity |]).
    left. split; reflexivity. }
  destruct (subtotal_monotone_total_within_brackets
              (th_invoice 500) (th_invoice 600) eq_refl eq_refl Hraised)
    as [Hs Ht].
  split; [exact Hs |].
  apply Ht. split; [reflexivity |].
  right; right. split; intros H; discriminate H.
Defined.

(** * Further properties of the source *)

(** ** Validity, characterised *)

Lemma spec_item_problems_ok it : item_ok it -> spec_item_problems it = [].
Proof.
  intros (Hs & Hq & Hp & Hc). unfold spec_item_problems.
  rewrite !app_nil. repeat split; apply problem_if_nil.
  - exact Hs.
  - lia.
  - now apply Qle_not_lt.
  - intros Hn. now apply Hn.
Qed.

Lemma flat_map_ok_nil its :
  Forall item_ok its -> flat_map spec_item_problems its = [].
Proof.
  induction 1 as [| it its Hit _ IH]; [reflexivity |].
  simpl. now rewrite (spec_item_problems_ok it Hit).
Qed.

Lemma valid_invoice_ok inv :
  _validate (Some inv) = [] ->
  invoice_id inv <> "" /\ customer_id inv <> "" /\ items inv <> []
  /\ Forall item_ok (items inv).
Proof.
  rewrite _validate_present. unfold spec_problems.
  rewrite !app_nil. intros (H1 & H2 & H3 & H).
  apply problem_if_nil in H1, H2, H3.
  repeat split; try assumption.
  apply flat_map_nil_Forall in H.
  eapply Forall_impl; [exact H |].
  intros it. apply spec_item_problems_nil.
Qed.

Lemma ok_invoice_valid inv :
  invoice_id inv <> "" -> customer_id inv <> "" -> items inv <> [] ->
  Forall item_ok (items inv) -> _validate (Some inv) = [].
Proof.
  intros H1 H2 H3 H. rewrite _validate_present. unfold spec_problems.
  rewrite !app_nil. repeat split; try now apply problem_if_nil.
  now apply flat_map_ok_nil.
Qed.

(** X1: an invoice passes [_validate] exactly when both identifiers are
    non-empty, there is at least one item, and every item has a non-empty
    sku, a positive quantity, a non-negative price and a known category. *)
Theorem _validate_empty_iff inv :
  _validate (Some inv) = []
  <-> invoice_id inv <> "" /\ customer_id inv <> "" /\ items inv <> []
      /\ Forall item_ok (items inv).
Proof.
  split.
  - apply valid_invoice_ok.
  - intros (H1 & H2 & H3 & H). now apply ok_invoice_valid.
Qed.

(** ** The message names every problem *)

Lemma append_nil_r s : s +:+ "" = s.
Proof.
  induction s as [| c s IH]; [reflexivity |].
  change (String c (s +:+ "") = String c s). now rewrite IH.
Qed.

Lemma append_assoc s t u : (s +:+ t) +:+ u = s +:+ (t +:+ u).
Proof.
  induction s as [| c s IH]; [reflexivity |].
  change (String c ((s +:+ t) +:+ u) = String c (s +:+ (t +:+ u))).
  now rewrite IH.
Qed.

Lemma join_cons sep x y rest :
  join sep (x :: y :: rest) = x +:+ sep +:+ join sep (y :: rest).
Proof. reflexivity. Qed.

Lemma join_contains sep l p : p ∈ l -> contains (join sep l) p.
Proof.
  induction l as [| x [| y rest] IH]; intros Hin.
  - now apply elem_of_nil in Hin.
  - apply list_elem_of_singleton in Hin as ->.
    exists "", "". symmetry. apply (append_nil_r x).
  - rewrite join_cons. apply elem_of_cons in Hin as [-> | Hin].
    + exists "", (sep +:+ join sep (y :: rest)). reflexivity.
    + destruct (IH Hin) as (pre & post & ->).
      exists (x +:+ sep +:+ pre), post. now rewrite !append_assoc.
Qed.

(** X2: every problem that [_validate] finds occurs in the message of the
    [ValueError] that [compute_total] raises. *)
Theorem compute_total_message_contains self inv p :
  p ∈ _validate inv ->
  exists msg, compute_total self inv = ValueError msg /\ contains msg p.
Proof.
  intros Hin. exists (join "; " (_validate inv)). split.
  - apply compute_total_invalid. intros Hnil. rewrite Hnil in Hin.
    now apply elem_of_nil in Hin.
  - now apply join_contains.
Qed.

(** The second of the four problems of an invoice, inside the message. *)
Lemma compute_total_message_contains_witness :
  exists msg,
    compute_total __init__ (Some broken_invoice) = ValueError msg
    /\ contains msg "Invalid qty for X".
Proof.
  apply (compute_total_message_contains __init__ (Some broken_invoice)
           "Invalid qty for X").
  apply list_elem_of_further, list_elem_of_here.
Defined.

Lemma problem_raises self inv p : p ∈ _validate inv -> raises_naming self inv p.
Proof.
  intros Hin. exists (join "; " (_validate inv)). split.
  - apply compute_total_invalid. intros Hnil. rewrite Hnil in Hin.
    now apply elem_of_nil in Hin.
  - now apply join_contains.
Qed.

Lemma problem_if_elem (P : Prop) `{Decision P} msg : P -> msg ∈ problem_if P msg.
Proof.
  intros HP. unfold problem_if. rewrite decide_True by assumption.
  apply list_elem_of_here.
Qed.

Lemma item_problem_elem inv it p :
  it ∈ items inv -> p ∈ spec_item_problems it -> p ∈ _validate (Some inv).
Proof.
  intros Hit Hp. rewrite _validate_present. unfold spec_problems.
  rewrite !elem_of_app. do 3 right.
  apply list_elem_of_In, in_flat_map. exists it.
  split; now apply list_elem_of_In.
Qed.

(** X3: a missing invoice_id, a missing customer_id and an empty item list
    each make [compute_total] raise a [ValueError] whose message names that
    problem, whatever else is wrong with the invoice. *)
Theorem compute_total_names_header_problem self inv :
  (invoice_id inv = "" -> raises_naming self (Some inv) "Missing invoice_id")
  /\ (customer_id inv = "" ->
      raises_naming self (Some inv) "Missing customer_id")
  /\ (items inv = [] ->
      raises_naming self (Some inv) "Invoice must contain items").
Proof.
  split; [| split]; intros H; apply problem_raises;
    rewrite _validate_present; unfold spec_problems; rewrite !elem_of_app.
  - left. now apply problem_if_elem.
  - right; left. now apply problem_if_elem.
  - right; right; left. now apply problem_if_elem.
Qed.

(** X4: an item anywhere in the list with an empty sku, a quantity of 0 or
    less, a negative price or an unknown category makes [compute_total]
    raise a [ValueError] whose message names that problem with the item's
    sku, whatever else is wrong with the invoice. *)
Theorem compute_total_names_item_problem self inv it :
  it ∈ items inv ->
  (sku it = "" -> raises_naming self (Some inv) "Item sku is missing")
  /\ ((qty it <= 0)%Z ->
      raises_naming self (Some inv) ("Invalid qty for " +:+ sku it))
  /\ (unit_price it < 0 ->
      raises_naming self (Some inv) ("Invalid price for " +:+ sku it))
  /\ (category it ∉ ["book"; "food"; "electronics"; "other"] ->
      raises_naming self (Some inv) ("Unknown category for " +:+ sku it)).
Proof.
  intros Hit.
  split; [| split; [| split]]; intros H; apply problem_raises;
    apply (item_problem_elem inv it _ Hit);
    unfold spec_item_problems; rewrite !elem_of_app.
  - left. now apply problem_if_elem.
  - right; left. now apply problem_if_elem.
  - right; right; left. now apply problem_if_elem.
  - right; right; right. now apply problem_if_elem.
Qed.

(** An invoice without an invoice_id. *)
Lemma compute_total_names_header_problem_witness :
  raises_naming __init__ (Some broken_invoice) "Missing invoice_id".
Proof.
  destruct (compute_total_names_header_problem __init__ broken_invoice)
    as (H & _ & _).
  apply H. reflexivity.
Defined.

(** The item X of quantity 0, price -1 and category toy. *)
Lemma compute_total_names_item_problem_witness :
  raises_naming __init__ (Some broken_invoice) "Invalid qty for X"
  /\ raises_naming __init__ (Some broken_invoice) "Invalid price for X"
  /\ raises_naming __init__ (Some broken_invoice) "Unknown category for X".
Proof.
  destruct (compute_total_names_item_problem __init__ broken_invoice
              {| sku := "X"; category := "toy"; unit_price := -1; qty := 0;
                 fragile := true |})
    as (_ & Hq & Hp & Hc); [apply list_elem_of_here |].
  split; [| split].
  - apply Hq. simpl. lia.
  - apply Hp. reflexivity.
  - apply Hc. intros Hin. no_such_elem Hin.
Defined.

(** ** What validation and pricing do not read *)

Lemma spec_item_problems_fields it it' :
  validated_fields it = validated_fields it' ->
  spec_item_problems it = spec_item_problems it'.
Proof.
  unfold validated_fields, spec_item_problems.
  intros [= -> -> -> ->]. reflexivity.
Qed.

Lemma flat_map_problems_fields its its' :
  map validated_fields its = map validated_fields its' ->
  flat_map spec_item_problems its = flat_map spec_item_problems its'.
Proof.
  revert its'. induction its as [| it its IH]; intros [| it' its'] Hmap;
    try discriminate Hmap; [reflexivity |].
  injection Hmap as Hs Hq Hp Hc Hits. simpl.
  rewrite (IH its' Hits). f_equal.
  apply spec_item_problems_fields. unfold validated_fields. congruence.
Qed.

(** X5: [_validate] reads the two identifiers and, of each item, the sku,
    quantity, price and category only: country, membership, coupon and the
    fragile flags never cause or suppress a problem. *)
Theorem _validate_reads inv inv' :
  invoice_id inv = invoice_id inv' -> customer_id inv = customer_id inv' ->
  map validated_fields (items inv) = map validated_fields (items inv') ->
  _validate (Some inv) = _validate (Some inv').
Proof.
  intros Hid Hcust Hits. rewrite !_validate_present. unfold spec_problems.
  rewrite Hid, Hcust, (flat_map_problems_fields _ _ Hits).
  do 2 f_equal. f_equal.
  unfold problem_if.
  destruct (items inv), (items inv'); try discriminate Hits; reflexivity.
Qed.

(** The invoice of scenario 2 against one with another country, membership
    and coupon and a fragile item: the same (empty) list of problems. *)
Lemma _validate_reads_witness :
  _validate (Some big_invoice) = _validate (Some relabelled_invoice).
Proof.
  apply (_validate_reads big_invoice relabelled_invoice); reflexivity.
Defined.

Lemma fold_subtotal_fields its its' acc :
  map priced_fields its = map priced_fields its' ->
  fold_left _subtotal_step its acc = fold_left _subtotal_step its' acc.
Proof.
  revert its' acc. induction its as [| it its IH]; intros [| it' its'] acc Hmap;
    try discriminate Hmap; [reflexivity |].
  injection Hmap as Hp Hq Hf Hits. simpl.
  unfold _subtotal_step at 2 4. destruct acc as [subtotal fee].
  rewrite Hp, Hq, Hf. now apply IH.
Qed.

(** X6: on invoices that pass validation [compute_total] reads the country,
    the membership, the coupon and, of each item, the price, quantity and
    fragile flag only: identifiers, skus and categories do not change the
    total or the warnings. *)
Theorem compute_total_reads self inv inv' :
  _validate (Some inv) = [] -> _validate (Some inv') = [] ->
  country inv = country inv' -> membership inv = membership inv' ->
  coupon inv = coupon inv' ->
  map priced_fields (items inv) = map priced_fields (items inv') ->
  compute_total self (Some inv) = compute_total self (Some inv').
Proof.
  intros Hv Hv' Hcountry Hm Hc Hits.
  rewrite (compute_total_valid self inv Hv), (compute_total_valid self inv' Hv').
  unfold gross_total, warnings_of, tax_of, discount_of, shipping_of,
    fragile_fee_of, subtotal_of, _compute_subtotal_and_fragile_fee.
  now rewrite (fold_subtotal_fields _ _ _ Hits), Hcountry, Hm, Hc.
Qed.

(** The invoice of scenario 2 against one with other identifiers, sku and
    category. *)
Lemma compute_total_reads_witness :
  compute_total __init__ (Some big_invoice)
  = compute_total __init__ (Some renamed_invoice).
Proof.
  apply (compute_total_reads __init__ big_invoice renamed_invoice);
    reflexivity.
Defined.

(** ** Shipping, discount and tax as functions of the subtotal *)

(** X7: for one country the shipping fee never grows with the subtotal; it
    lies between 0 and 600 and is 0 from a subtotal of 4000 on. *)
Theorem _compute_shipping_antitone country s s' :
  s <= s' ->
  _compute_shipping country s' <= _compute_shipping country s
  /\ 0 <= _compute_shipping country s <= 600
  /\ (4000 <= s -> _compute_shipping country s = 0).
Proof.
  intros Hle. unfold _compute_shipping. by_country country.
  - by_bracket s 500; by_bracket s' 500;
      (split; [| split; [split |]]); try discriminate; try reflexivity; lra.
  - by_bracket s 4000; by_bracket s' 4000;
      (split; [| split; [split |]]); try discriminate; try reflexivity; lra.
  - by_bracket s 100; by_bracket s' 100; by_bracket s 300; by_bracket s' 300;
      (split; [| split; [split |]]); try discriminate; try reflexivity; lra.
  - by_bracket s 200; by_bracket s' 200;
      (split; [| split; [split |]]); try discriminate; try reflexivity; lra.
Qed.

(** From 450 to 550 in TH the fee goes from 60 to 0. *)
Lemma _compute_shipping_antitone_witness :
  _compute_shipping "TH" 550 <= _compute_shipping "TH" 450.
Proof.
  apply (_compute_shipping_antitone "TH" 450 550). discriminate.
Defined.

(** X8: on a non-negative subtotal the membership tiers are ordered: any
    membership gets at most the gold discount unless it is platinum, gold
    gets at most the platinum discount, and no discount is negative or above
    5% of the subtotal. *)
Theorem _compute_membership_discount_tiers m subtotal :
  0 <= subtotal ->
  0 <= _compute_membership_discount m subtotal <= subtotal * 0.05
  /\ _compute_membership_discount "gold" subtotal
     <= _compute_membership_discount "platinum" subtotal
  /\ (m <> "platinum" ->
      _compute_membership_discount m subtotal
      <= _compute_membership_discount "gold" subtotal).
Proof.
  intros Hs.
  change (_compute_membership_discount "gold" subtotal) with (subtotal * 0.03).
  change (_compute_membership_discount "platinum" subtotal)
    with (subtotal * 0.05).
  destruct (_compute_membership_discount_cases m subtotal)
    as [[_ Hmd] | [[Hp Hmd] | [(_ & _ & Hlt & Hmd) | (_ & _ & Hle & Hmd)]]];
    (split; [split; lra | split; [lra |]]); intros Hnp; try lra.
  congruence.
Qed.

(** A regular customer at 5000: 20, against 150 for gold and 250 for
    platinum. *)
Lemma _compute_membership_discount_tiers_witness :
  _compute_membership_discount "regular" 5000
  <= _compute_membership_discount "gold" 5000
  /\ _compute_membership_discount "gold" 5000
     <= _compute_membership_discount "platinum" 5000.
Proof.
  destruct (_compute_membership_discount_tiers "regular" 5000)
    as (_ & Hgp & Hmg); [discriminate |].
  split; [apply Hmg; discriminate | exact Hgp].
Defined.

(** X9: the tax has the sign of subtotal - discount, and on a non-negative
    base it lies between 5% and 10% of the base, whatever the country. *)
Theorem _compute_tax_bounds country subtotal discount :
  (0 <= _compute_tax country subtotal discount <-> discount <= subtotal)
  /\ (discount <= subtotal ->
      (subtotal - discount) * 0.05 <= _compute_tax country subtotal discount
      /\ _compute_tax country subtotal discount
         <= (subtotal - discount) * 0.10).
Proof.
  unfold _compute_tax.
  by_country country; (split; [split |]); intros; try split; lra.
Qed.

(** A base of 900 in a country outside the table: tax 45, the lower bound. *)
Lemma _compute_tax_bounds_witness :
  (1000 - 100) * 0.05 <= _compute_tax "DE" 1000 100
  /\ _compute_tax "DE" 1000 100 <= (1000 - 100) * 0.10.
Proof.
  destruct (_compute_tax_bounds "DE" 1000 100) as [_ H].
  apply H. discriminate.
Defined.

(** ** Coupons up to surrounding whitespace *)

Lemma lstrip_head s :
  lstrip s = "" \/ exists c t, lstrip s = String c t /\ isspace c = false.
Proof.
  induction s as [| c s IH]; simpl; [now left |].
  destruct (isspace c) eqn:Hc; [exact IH | right; eauto].
Qed.

Lemma rstrip_head c t :
  isspace c = false -> exists r, rstrip (String c t) = String c r.
Proof.
  intros Hc. simpl. rewrite Hc. destruct (rstrip t); eauto.
Qed.

Lemma rstrip_idempotent s : rstrip (rstrip s) = rstrip s.
Proof.
  induction s as [| c s IH]; [reflexivity |].
  simpl. destruct (rstrip s) as [| d r] eqn:Hr.
  - destruct (isspace c) eqn:Hc; [reflexivity |]. simpl. now rewrite Hc.
  - change (rstrip (String c (String d r))) with
      (match rstrip (String d r) with
       | "" => if isspace c then "" else String c ""
       | r' => String c r'
       end).
    now rewrite IH.
Qed.

Lemma strip_idempotent s : strip (strip s) = strip s.
Proof.
  unfold strip.
  destruct (lstrip_head s) as [-> | (c & t & -> & Hc)]; [reflexivity |].
  destruct (rstrip_head c t Hc) as [r Hr].
  rewrite Hr. simpl lstrip. rewrite Hc, <- Hr. apply rstrip_idempotent.
Qed.

(** X10: whatever the coupon table, [_apply_coupon] treats a coupon and its
    trimmed text alike: same discount, same warnings. *)
Theorem _apply_coupon_trimmed self c subtotal warnings :
  _apply_coupon self (Some c) subtotal warnings
  = _apply_coupon self (Some (strip c)) subtotal warnings.
Proof.
  unfold _apply_coupon. now rewrite strip_idempotent.
Qed.

(** X11: on an invoice that passes validation the warning "Unknown coupon"
    is returned exactly when the coupon is present and its trimmed text is
    neither empty nor a key of the coupon table. *)
Theorem unknown_coupon_warning_rule self inv :
  _validate (Some inv) = [] ->
  exists total warnings,
    compute_total self (Some inv) = Return total warnings
    /\ ("Unknown coupon" ∈ warnings
        <-> exists c, coupon inv = Some c /\ strip c <> ""
                      /\ _coupon_rate self !! strip c = None).
Proof.
  intros Hv. rewrite (compute_total_valid self inv Hv).
  do 2 eexists. split; [reflexivity |].
  unfold warnings_of, _apply_coupon.
  set (up := ltb 10000 (subtotal_of inv) && not_premium (membership inv)).
  destruct (coupon inv) as [c |].
  - destruct (falsy (strip c)) eqn:Hf.
    + apply falsy_empty in Hf. split.
      * intros H. destruct up; simpl in H; no_such_elem H.
      * intros (c' & [= <-] & Hne & _). contradiction.
    + assert (strip c <> "") as Hne.
      { intros He. apply falsy_empty in He. congruence. }
      destruct (_coupon_rate self !! strip c) as [rate |] eqn:Hk.
      * split.
        -- intros H. destruct up; simpl in H; no_such_elem H.
        -- intros (c' & [= <-] & _ & Hnone). congruence.
      * split; [eauto |].
        intros _. destruct up; simpl; apply list_elem_of_here.
  - split.
    + intros H. destruct up; simpl in H; no_such_elem H.
    + intros (c' & [=] & _).
Qed.

(** The unrecognised coupon of scenario 4. *)
Lemma unknown_coupon_warning_rule_witness :
  exists total warnings,
    compute_total __init__ (Some big_invoice) = Return total warnings
    /\ "Unknown coupon" ∈ warnings.
Proof.
  destruct (unknown_coupon_warning_rule __init__ big_invoice eq_refl)
    as (total & warnings & Hrun & Hiff).
  exists total, warnings. split; [exact Hrun |].
  apply Hiff. exists "BOGUS".
  split; [reflexivity | split; [discriminate | reflexivity]].
Defined.

(** ** Bounds on the total *)

Lemma default_discount_nonneg inv :
  0 <= subtotal_of inv -> 0 <= discount_of __init__ inv.
Proof.
  intros Hs. unfold discount_of.
  destruct (default_coupon_discount (coupon inv)) as (rate & Hcd & Hrate).
  specialize (Hcd (subtotal_of inv)).
  destruct (_compute_membership_discount_cases (membership inv) (subtotal_of inv))
    as [[_ Hmd] | [[_ Hmd] | [(_ & _ & Hlt & Hmd) | (_ & _ & Hle & Hmd)]]];
    destruct Hrate as [-> | [-> | [-> | ->]]]; lra.
Qed.

(** Below the bound where shipping becomes free the fee is at least 8, and
    15 below a subtotal of 100. *)
Lemma _compute_shipping_floor country subtotal :
  (subtotal < 100 -> 15 <= _compute_shipping country subtotal)
  /\ (subtotal < 200 -> 8 <= _compute_shipping country subtotal).
Proof.
  unfold _compute_shipping. by_country country.
  - by_bracket subtotal 500; split; intros; try discriminate; lra.
  - by_bracket subtotal 4000; split; intros; try discriminate; lra.
  - by_bracket subtotal 100; [split; intros; discriminate |].
    by_bracket subtotal 300; split; intros; try discriminate; lra.
  - by_bracket subtotal 200; split; intros; try discriminate; lra.
Qed.

(** X12: with the table of [__init__] the total of an invoice that passes
    validation is at least 15 and at least the fragile fee, and at most what
    the invoice would cost without any discount: subtotal plus tax on the
    subtotal plus shipping plus fragile fee. *)
Theorem compute_total_bounds inv :
  _validate (Some inv) = [] ->
  exists total warnings,
    compute_total __init__ (Some inv) = Return total warnings
    /\ 15 <= total /\ fragile_fee_of inv <= total
    /\ total <= subtotal_of inv * (1 + spec_tax_rate (country inv))
                + shipping_of inv + fragile_fee_of inv.
Proof.
  intros Hv. rewrite (default_total_unclamped inv Hv).
  do 2 eexists. split; [reflexivity |].
  rewrite default_gross_total.
  destruct (valid_amounts_nonneg inv Hv) as [Hs Hf].
  destruct (default_discount_bound inv Hs) as [Hd Hbase].
  pose proof (default_discount_nonneg inv Hs) as Hd0.
  pose proof (spec_tax_rate_pos (country inv)) as Hr.
  pose proof (_compute_shipping_nonneg (country inv) (subtotal_of inv)) as Hsh.
  destruct (_compute_shipping_floor (country inv) (subtotal_of inv))
    as [Hlow Hmid].
  fold (shipping_of inv) in Hsh, Hlow, Hmid.
  assert (0 <= (subtotal_of inv - discount_of __init__ inv)
               * spec_tax_rate (country inv)) as Hbr
    by (apply Qmult_le_0_compat; lra).
  assert (0 <= discount_of __init__ inv * spec_tax_rate (country inv)) as Hdr
    by (apply Qmult_le_0_compat; lra).
  split; [| split]; [| lra | lra].
  destruct (Qlt_le_dec (subtotal_of inv) 100) as [H100 | H100].
  - specialize (Hlow H100). lra.
  - destruct Hd as [Hd | [Hbig Hd]]; lra.
Qed.

(** Scenario 3: total 963, between 15 and the undiscounted 1070. *)
Lemma compute_total_bounds_witness :
  exists total warnings,
    compute_total __init__ (Some welcome_invoice) = Return total warnings
    /\ 15 <= total /\ total <= 1070.
Proof.
  destruct (compute_total_bounds welcome_invoice eq_refl)
    as (total & warnings & Hrun & Hlo & _ & Hhi).
  exists total, warnings. split; [exact Hrun | split; [exact Hlo |]].
  eapply Qle_trans; [exact Hhi | discriminate].
Defined.

(** ** Raising a line, continued *)

Lemma line_raised_ok it it' : item_ok it -> line_raised it it' -> item_ok it'.
Proof.
  intros (Hs & Hq & Hp & Hc) (Es & Ec & _ & Hraise).
  unfold item_ok. rewrite Es, Ec.
  destruct Hraise as [[Hlt ->] | [-> Hlt]]; repeat split; try assumption.
  - apply Qlt_le_weak. eapply Qle_lt_trans; eassumption.
  - lia.
Qed.

(** X13: raising the price or the quantity of one line of an invoice that
    passes validation gives an invoice that passes validation too, with a
    fragile fee that is not smaller, and the advice "Consider membership
    upgrade" is returned for the raised invoice whenever it is returned for
    the original (any coupon table). *)
Theorem one_line_raised_keeps self inv inv' :
  _validate (Some inv) = [] -> one_line_raised inv inv' ->
  _validate (Some inv') = []
  /\ fragile_fee_of inv <= fragile_fee_of inv'
  /\ (forall total warnings,
        compute_total self (Some inv) = Return total warnings ->
        "Consider membership upgrade" ∈ warnings ->
        exists total' warnings',
          compute_total self (Some inv') = Return total' warnings'
          /\ "Consider membership upgrade" ∈ warnings').
Proof.
  intros Hv Hraised.
  assert (_validate (Some inv') = []) as Hv'.
  { destruct (valid_invoice_ok inv Hv) as (H1 & H2 & _ & Hits).
    destruct Hraised
      as (E1 & E2 & _ & _ & _ & pre & it & it' & post & Hi & Hi' & Hline).
    apply ok_invoice_valid.
    - now rewrite E1.
    - now rewrite E2.
    - rewrite Hi'. now destruct pre.
    - rewrite Hi in Hits. rewrite Hi'.
      apply Forall_app in Hits as [Hpre Hits].
      apply Forall_cons in Hits as [Hit Hpost].
      apply Forall_app. split; [exact Hpre |].
      apply Forall_cons. split; [| exact Hpost].
      now apply (line_raised_ok it it'). }
  destruct (one_line_raised_amounts inv inv' Hv Hraised) as [Hs Hf].
  split; [exact Hv' | split; [exact Hf |]].
  intros total warnings Hrun Hin.
  rewrite (compute_total_valid self inv Hv) in Hrun.
  injection Hrun as _ <-.
  rewrite (compute_total_valid self inv' Hv'). do 2 eexists.
  split; [reflexivity |].
  destruct Hraised as (_ & _ & _ & Hm & _).
  unfold warnings_of in *. rewrite Hm.
  destruct (ltb 10000 (subtotal_of inv) && not_premium (membership inv))
    eqn:Hup.
  - apply andb_true_iff in Hup as [Hlt Hnp]. apply ltb_lt in Hlt.
    assert (ltb 10000 (subtotal_of inv') = true) as ->
      by (apply ltb_lt; lra).
    rewrite Hnp. simpl. apply elem_of_app. right.
    apply list_elem_of_here.
  - destruct (_apply_coupon_warnings self (coupon inv) (subtotal_of inv))
      as [Hw | Hw]; rewrite Hw in Hin; no_such_elem Hin.
Qed.

(** Raising the TH line from 499 to 500: still valid, fragile fee still 0. *)
Lemma one_line_raised_keeps_witness :
  _validate (Some (th_invoice 500)) = []
  /\ fragile_fee_of (th_invoice 499) <= fragile_fee_of (th_invoice 500).
Proof.
  destruct (one_line_raised_keeps __init__ (th_invoice 499) (th_invoice 500)
              eq_refl th_invoice_raised) as (Hv & Hf & _).
  split; [exact Hv | exact Hf].
Defined.

(** ** Fragile fee and the shape of the total *)

Lemma fold_fragile_units its subtotal fee :
  snd (fold_left _subtotal_step its (subtotal, fee))
  == fee + 5 * inject_Z (fragile_units its).
Proof.
  revert subtotal fee.
  induction its as [| it its IH]; intros subtotal fee.
  - simpl. ring.
  - cbn [fold_left _subtotal_step fragile_units].
    destruct (fragile it); rewrite IH, inject_Z_plus; ring.
Qed.

Lemma fragile_units_pos its :
  Forall item_ok its -> Exists (fun it => fragile it = true) its ->
  (1 <= fragile_units its)%Z.
Proof.
  intros Hok Hex. induction Hok as [| it its Hit Hok IH]; [inversion Hex |].
  assert (0 <= fragile_units its)%Z as Hnn.
  { clear -Hok. induction Hok as [| x l (_ & Hq & _) _ IHl]; simpl; [lia |].
    destruct (fragile x); lia. }
  destruct Hit as (_ & Hq & _). simpl.
  apply Exists_cons in Hex as [Hf | Hex].
  - rewrite Hf. lia.
  - specialize (IH Hex). destruct (fragile it); lia.
Qed.

(** X14: the fragile fee is 5 for every unit on a fragile line, whatever the
    prices; on an invoice that passes validation it is at least 5 as soon
    as one item is fragile. *)
Theorem fragile_fee_per_unit inv :
  fragile_fee_of inv == 5 * inject_Z (fragile_units (items inv))
  /\ (_validate (Some inv) = [] ->
      Exists (fun it => fragile it = true) (items inv) ->
      5 <= fragile_fee_of inv).
Proof.
  assert (fragile_fee_of inv == 5 * inject_Z (fragile_units (items inv))) as Hfee.
  { unfold fragile_fee_of, _compute_subtotal_and_fragile_fee.
    rewrite fold_fragile_units. ring. }
  split; [exact Hfee |].
  intros Hv Hex. rewrite Hfee.
  destruct (valid_invoice_ok inv Hv) as (_ & _ & _ & Hok).
  pose proof (fragile_units_pos _ Hok Hex) as Hpos.
  assert (1 <= inject_Z (fragile_units (items inv))) as Hq.
  { change 1 with (inject_Z 1). rewrite <- Zle_Qle. exact Hpos. }
  lra.
Qed.

(** Scenario 6: three fragile units, fee 15. *)
Lemma fragile_fee_per_unit_witness :
  fragile_fee_of fragile_invoice == 15 /\ 5 <= fragile_fee_of fragile_invoice.
Proof.
  destruct (fragile_fee_per_unit fragile_invoice) as [Hfee Hmin].
  split; [rewrite Hfee; reflexivity |].
  apply Hmin; [reflexivity |].
  apply Exists_cons_hd. reflexivity.
Defined.

(** X15: with the table of [__init__], on an invoice that passes validation
    the total is the discounted subtotal with tax on it, plus shipping and
    fragile fee, which are neither taxed nor discounted. *)
Theorem compute_total_shape inv :
  _validate (Some inv) = [] ->
  exists total warnings,
    compute_total __init__ (Some inv) = Return total warnings
    /\ total == (subtotal_of inv - discount_of __init__ inv)
                * (1 + spec_tax_rate (country inv))
                + shipping_of inv + fragile_fee_of inv.
Proof.
  intros Hv. rewrite (default_total_unclamped inv Hv).
  do 2 eexists. split; [reflexivity | apply default_gross_total].
Qed.

(** The gold invoice with a fragile line: (70 - 2.1) x 1.08 + 15 + 15. *)
Lemma compute_total_shape_witness :
  exists total warnings,
    compute_total __init__ (Some fragile_invoice) = Return total warnings
    /\ total == 103.332.
Proof.
  destruct (compute_total_shape fragile_invoice eq_refl)
    as (total & warnings & Hrun & Htotal).
  exists total, warnings. split; [exact Hrun |].
  rewrite Htotal. reflexivity.
Defined.

(** Scenario 1's invoice passes validation by the four conditions. *)
Lemma _validate_empty_iff_witness : _validate (Some us_invoice) = [].
Proof.
  apply (_validate_empty_iff us_invoice).
  split; [discriminate | split; [discriminate | split; [discriminate |]]].
  apply Forall_cons. split; [| apply Forall_nil; exact I].
  unfold item_ok. split; [discriminate | split; [reflexivity | split]].
  - discriminate.
  - apply list_elem_of_here.
Defined.

(** ** The two embeddings agree *)

(** X16: a call of the heap-based [compute_total] on a service object and an
    invoice argument shows the caller exactly the outcome of the pure
    [compute_total] on the service and the invoice the argument refers to;
    the warnings it returns are in a list object that did not exist before
    the call. *)
Theorem compute_total_refines h self inv svc c h' :
  Stateful.services h !! self = Some svc -> Stateful.allocated h inv ->
  Stateful.compute_total self inv h = (c, h') ->
  Stateful.observe c h' = compute_total svc (Stateful.referent h inv)
  /\ (forall total w, c = Stateful.Normal (total, w) ->
      w ∉ dom (Stateful.lists h)).
Proof.
  destruct h as [sv iv L].
  cbn [Stateful.services Stateful.lists].
  intros Hself Halloc Hrun.
  destruct (compute_total_run sv iv L self inv svc Hself Halloc)
    as (d & L1 & Hd & Hobs & _ & Hnew).
  rewrite Hd in Hrun. injection Hrun as <- <-.
  split; [exact Hobs |].
  intros total w Hc. now destruct (Hnew total w Hc).
Qed.

(** The call on the invoice of scenario 2 shows what the pure function
    computes for it. *)
Lemma compute_total_refines_witness :
  let run := Stateful.compute_total 1 (Some 1%positive) office_heap in
  Stateful.observe (fst run) (snd run)
  = compute_total __init__ (Some big_invoice).
Proof.
  intros run.
  apply (compute_total_refines office_heap 1 (Some 1%positive) __init__
           (fst run) (snd run)).
  - reflexivity.
  - intros r [= <-]. exists big_invoice. reflexivity.
  - apply surjective_pairing.
Defined.
